(** * Unit conversion utilities of the groundwater platform

    A shallow embedding of [utils/unitConversion.ts]: the unit registry, the
    typical-range table, [convertUnit], [convertToMgL],
    [detectUnitForDataset], [parseUnit] and [getBestDisplayUnit], followed by
    the properties established about them.

    The TypeScript [number] type is kept abstract behind the class
    [JsNumber], so that every function is written once, the way the source
    writes it, and is then read at two instances:
    - [Q], exact rational arithmetic (every literal of the source is a
      decimal and hence a rational);
    - [float], the IEEE 754 binary64 numbers the program really runs on.  *)

From Stdlib Require Import ZArith QArith Qabs Floats List String Ascii Bool Arith Lia Lqa.
From Stdlib Require Import Permutation.
Import ListNotations.

Set Warnings "-inexact-float".
Set Implicit Arguments.

(** ** Numbers *)

(** The operations [unitConversion.ts] performs on values of type [number]:
    decimal literals, [*], [/] and the four order comparisons.  The
    comparisons are kept apart because on binary64 [a >= b] is not the
    negation of [a < b] (both are false on NaN). *)
Class JsNumber (num : Type) : Type := {
  lit : Q -> num;
  mul : num -> num -> num;
  div : num -> num -> num;
  ltb : num -> num -> bool;
  leb : num -> num -> bool;
  gtb : num -> num -> bool;
  geb : num -> num -> bool
}.

Declare Scope js_scope.
Delimit Scope js_scope with js.
Infix "*" := mul : js_scope.
Infix "/" := div : js_scope.
Infix "<?" := ltb (at level 70) : js_scope.
Infix "<=?" := leb (at level 70) : js_scope.
Infix ">?" := gtb (at level 70) : js_scope.
Infix ">=?" := geb (at level 70) : js_scope.

(** Exact arithmetic. *)
Definition Qlt_bool (x y : Q) : bool := negb (Qle_bool y x).

#[export] Instance Q_JsNumber : JsNumber Q := {
  lit := fun q => q;
  mul := Qmult;
  div := Qdiv;
  ltb := Qlt_bool;
  leb := Qle_bool;
  gtb := fun x y => Qlt_bool y x;
  geb := fun x y => Qle_bool y x
}.

(** Binary64.  A decimal literal [n / 10^k] of the source denotes the double
    nearest to it; since [n] and [10^k] are themselves doubles for every
    literal of the file, that is the correctly rounded quotient. *)
Definition float_of_Z (z : Z) : float :=
  match z with
  | Zneg p => PrimFloat.opp (PrimFloat.of_uint63 (Uint63.of_Z (Zpos p)))
  | _ => PrimFloat.of_uint63 (Uint63.of_Z z)
  end.

Definition float_lit (q : Q) : float :=
  PrimFloat.div (float_of_Z (Qnum q)) (float_of_Z (Zpos (Qden q))).

#[export] Instance float_JsNumber : JsNumber float := {
  lit := float_lit;
  mul := PrimFloat.mul;
  div := PrimFloat.div;
  ltb := PrimFloat.ltb;
  leb := PrimFloat.leb;
  gtb := fun x y => PrimFloat.ltb y x;
  geb := fun x y => PrimFloat.leb y x
}.

(** ** Data model *)

(** [enum Unit], in declaration order. *)
Inductive Unit : Set := MG_L | PPM | PPB | UG_L.

Definition Unit_eqb (a b : Unit) : bool :=
  match a, b with
  | MG_L, MG_L | PPM, PPM | PPB, PPB | UG_L, UG_L => true
  | _, _ => false
  end.

(** Modelled from the spec: the enumeration [Metal] is declared in [types.ts],
    which is not part of the sources at hand; the eight identifiers are those
    the specification lists and [TYPICAL_RANGES] is keyed by. *)
Inductive Metal : Set := Pb | As | Hg | Cd | Cr | Ni | Zn | Fe.

(** The keys of [TYPICAL_RANGES] in insertion order, which is the order
    [Object.values] visits them in. *)
Definition AVAILABLE_METALS : list Metal := [Pb; As; Hg; Cd; Cr; Ni; Zn; Fe].

Record UnitInfo (num : Type) : Type := mkUnitInfo {
  symbol : string;
  name : string;
  toMgL : num
}.

Record Range (num : Type) : Type := mkRange {
  min : num;
  max : num
}.

(** The mapping [Record<Metal, number | undefined>] of a sample, as the list
    of its own properties in insertion order; [None] is [undefined]. *)
Record Sample (num : Type) : Type := mkSample {
  concentrations : list (Metal * option num)
}.

Record ConcentrationWithUnit (num : Type) : Type := mkConcentration {
  value : num;
  unit : Unit
}.

(** [Object.values(Unit)]: a string enum lists its members in declaration
    order. *)
Definition AVAILABLE_UNITS : list Unit := [MG_L; PPM; PPB; UG_L].

(** Position of a unit in the enumeration order. *)
Definition unit_index (u : Unit) : nat :=
  match u with MG_L => 0 | PPM => 1 | PPB => 2 | UG_L => 3 end.

Open Scope string_scope.
Open Scope list_scope.

Section Core.
Context {num : Type} `{JsNumber num}.
Local Open Scope js_scope.

(** *** Unit registry *)
Definition UNIT_INFO (u : Unit) : UnitInfo num :=
  match u with
  | MG_L => mkUnitInfo "mg/L" "Milligrams per Liter" (lit 1)
  | PPM => mkUnitInfo "ppm" "Parts per Million" (lit 1)
  | PPB => mkUnitInfo "ppb" "Parts per Billion" (lit 0.001)
  | UG_L => mkUnitInfo "μg/L" "Micrograms per Liter" (lit 0.001)
  end.

(** *** Typical ranges *)
Definition TYPICAL_RANGES (m : Metal) (u : Unit) : Range num :=
  match m, u with
  | Pb, MG_L => mkRange (lit 0.0001) (lit 0.1)
  | Pb, PPM => mkRange (lit 0.0001) (lit 0.1)
  | Pb, PPB => mkRange (lit 0.1) (lit 100)
  | Pb, UG_L => mkRange (lit 0.1) (lit 100)
  | As, MG_L => mkRange (lit 0.0001) (lit 0.1)
  | As, PPM => mkRange (lit 0.0001) (lit 0.1)
  | As, PPB => mkRange (lit 0.1) (lit 100)
  | As, UG_L => mkRange (lit 0.1) (lit 100)
  | Hg, MG_L => mkRange (lit 0.00001) (lit 0.01)
  | Hg, PPM => mkRange (lit 0.00001) (lit 0.01)
  | Hg, PPB => mkRange (lit 0.01) (lit 10)
  | Hg, UG_L => mkRange (lit 0.01) (lit 10)
  | Cd, MG_L => mkRange (lit 0.0001) (lit 0.01)
  | Cd, PPM => mkRange (lit 0.0001) (lit 0.01)
  | Cd, PPB => mkRange (lit 0.1) (lit 10)
  | Cd, UG_L => mkRange (lit 0.1) (lit 10)
  | Cr, MG_L => mkRange (lit 0.001) (lit 0.5)
  | Cr, PPM => mkRange (lit 0.001) (lit 0.5)
  | Cr, PPB => mkRange (lit 1) (lit 500)
  | Cr, UG_L => mkRange (lit 1) (lit 500)
  | Ni, MG_L => mkRange (lit 0.001) (lit 0.2)
  | Ni, PPM => mkRange (lit 0.001) (lit 0.2)
  | Ni, PPB => mkRange (lit 1) (lit 200)
  | Ni, UG_L => mkRange (lit 1) (lit 200)
  | Zn, MG_L => mkRange (lit 0.01) (lit 10)
  | Zn, PPM => mkRange (lit 0.01) (lit 10)
  | Zn, PPB => mkRange (lit 10) (lit 10000)
  | Zn, UG_L => mkRange (lit 10) (lit 10000)
  | Fe, MG_L => mkRange (lit 0.01) (lit 5)
  | Fe, PPM => mkRange (lit 0.01) (lit 5)
  | Fe, PPB => mkRange (lit 10) (lit 5000)
  | Fe, UG_L => mkRange (lit 10) (lit 5000)
  end.

(** *** Conversion *)
Definition convertUnit (value : num) (fromUnit toUnit : Unit) : num :=
  if Unit_eqb fromUnit toUnit then value
  else
    let mgLValue := value * toMgL (UNIT_INFO fromUnit) in
    mgLValue / toMgL (UNIT_INFO toUnit).

Definition convertToMgL (concentration : ConcentrationWithUnit num) : num :=
  convertUnit (value concentration) (unit concentration) MG_L.

(** *** Dataset-wide unit detection *)

(** The two nested [forEach] loops that fill [allValues]; [push] appends. *)
Definition collectValues (samples : list (Sample num)) : list num :=
  fold_left
    (fun allValues sample =>
       fold_left
         (fun allValues value =>
            match value with
            | Some v => if v >? lit 0 then allValues ++ [v] else allValues
            | None => allValues
            end)
         (map snd (concentrations sample)) allValues)
    samples [].

(** The innermost loop: the flag is raised by any metal whose range for
    [unit] contains the value, and never lowered. *)
Definition fitsInAnyRange (value : num) (unit : Unit) : bool :=
  fold_left
    (fun fits metalRanges =>
       let range := metalRanges unit in
       if (value >=? min range) && (value <=? max range) then true else fits)
    (map TYPICAL_RANGES AVAILABLE_METALS) false.

(** [unitScores[unit]++] on the score table [Record<Unit, number>]. *)
Definition incr (unitScores : Unit -> nat) (unit : Unit) : Unit -> nat :=
  fun u => if Unit_eqb u unit then S (unitScores u) else unitScores u.

Definition scoreValue (unitScores : Unit -> nat) (value : num) : Unit -> nat :=
  fold_left
    (fun unitScores unit =>
       if fitsInAnyRange value unit then incr unitScores unit else unitScores)
    AVAILABLE_UNITS unitScores.

Definition unitScores (allValues : list num) : Unit -> nat :=
  fold_left scoreValue allValues (fun _ => 0%nat).

(** The final loop: the pair [(bestUnit, bestScore)] starts at [MG_L] and is
    replaced on a strictly greater score only. *)
Definition selectBest (unitScores : Unit -> nat) : Unit :=
  fst (fold_left
         (fun best unit =>
            if (snd best <? unitScores unit)%nat then (unit, unitScores unit)
            else best)
         AVAILABLE_UNITS (MG_L, unitScores MG_L)).

Definition detectUnitForDataset (samples : list (Sample num)) : Unit :=
  if (List.length samples =? 0)%nat then MG_L
  else
    let allValues := collectValues samples in
    if (List.length allValues =? 0)%nat then MG_L
    else selectBest (unitScores allValues).

(** *** Display unit *)
Definition getBestDisplayUnit (value : num) (currentUnit : Unit) (metal : Metal) : Unit :=
  let mgLValue := convertUnit value currentUnit MG_L in
  if mgLValue <? lit 0.001 then
    let ppbValue := convertUnit mgLValue MG_L PPB in
    if ppbValue >=? lit 0.1 then PPB else UG_L
  else
    if mgLValue >=? lit 0.001 then MG_L else PPM.
(** *** Derived notions, used to state what the loops compute *)

(** The present, strictly positive values of one sample. *)
Definition positives (s : Sample num) : list num :=
  flat_map
    (fun value : option num =>
       match value with
       | Some v => if v >? lit 0 then [v] else []
       | None => []
       end)
    (map snd (concentrations s)).

(** The test the innermost loop applies to one metal's range. *)
Definition inRange (value : num) (unit : Unit) (m : Metal) : bool :=
  (value >=? min (TYPICAL_RANGES m unit)) && (value <=? max (TYPICAL_RANGES m unit)).

End Core.


(** ** Unit parser *)

(** The values an expression of [parseUnit] can evaluate to at run time: a
    member of [Unit] (one of the enum's strings), [null], [undefined], or
    a built-in function or object reached through the prototype chain. *)
Inductive JsValue : Set :=
| VUnit (u : Unit)
| VNull
| VUndefined
| VBuiltin (what : string).

(** The string each member of [enum Unit] stands for. *)
Definition Unit_value (u : Unit) : string :=
  match u with
  | MG_L => "mg/L"
  | PPM => "ppm"
  | PPB => "ppb"
  | UG_L => "μg/L"
  end.

(** Truthiness, as [||] tests it: a string is truthy unless empty, objects
    and functions are truthy, [null] and [undefined] are not. *)
Definition truthy (v : JsValue) : bool :=
  match v with
  | VUnit u => negb (String.eqb (Unit_value u) "")
  | VBuiltin _ => true
  | VNull | VUndefined => false
  end.

(** [v || null] *)
Definition or_null (v : JsValue) : JsValue :=
  if truthy v then v else VNull.

(** First binding of a key in a list of properties. *)
Fixpoint lookup {A : Type} (key : string) (props : list (string * A)) : option A :=
  match props with
  | [] => None
  | (k, v) :: rest => if String.eqb key k then Some v else lookup key rest
  end.

(** The own properties of the object literal [unitMappings]. *)
Definition unitMappings : list (string * Unit) :=
  [ ("mg/l", MG_L);
    ("mgl", MG_L);
    ("mg per l", MG_L);
    ("mg per liter", MG_L);
    ("milligrams per liter", MG_L);
    ("ppm", PPM);
    ("parts per million", PPM);
    ("ppb", PPB);
    ("parts per billion", PPB);
    ("μg/l", UG_L);
    ("ug/l", UG_L);
    ("ugl", UG_L);
    ("micrograms per liter", UG_L);
    ("μg per l", UG_L);
    ("ug per l", UG_L) ].

(** An object literal inherits from [Object.prototype]; these are the
    properties a read finds there when the object has no own property of
    that name. *)
Definition Object_prototype : list (string * JsValue) :=
  [ ("constructor", VBuiltin "Object");
    ("hasOwnProperty", VBuiltin "Object.prototype.hasOwnProperty");
    ("isPrototypeOf", VBuiltin "Object.prototype.isPrototypeOf");
    ("propertyIsEnumerable", VBuiltin "Object.prototype.propertyIsEnumerable");
    ("toLocaleString", VBuiltin "Object.prototype.toLocaleString");
    ("toString", VBuiltin "Object.prototype.toString");
    ("valueOf", VBuiltin "Object.prototype.valueOf");
    ("__proto__", VBuiltin "Object.prototype");
    ("__defineGetter__", VBuiltin "Object.prototype.__defineGetter__");
    ("__defineSetter__", VBuiltin "Object.prototype.__defineSetter__");
    ("__lookupGetter__", VBuiltin "Object.prototype.__lookupGetter__");
    ("__lookupSetter__", VBuiltin "Object.prototype.__lookupSetter__") ].

(** The property read [unitMappings[key]]: own properties first, then the
    prototype, else [undefined]. *)
Definition getProperty (own : list (string * Unit)) (key : string) : JsValue :=
  match lookup key own with
  | Some u => VUnit u
  | None =>
      match lookup key Object_prototype with
      | Some v => v
      | None => VUndefined
      end
  end.

(** The two string built-ins [parseUnit] normalises its argument with. *)
Class JsString : Type := {
  toLowerCase : string -> string;
  trim : string -> string
}.

Definition parseUnit `{JsString} (unitStr : string) : JsValue :=
  let normalized := trim (toLowerCase unitStr) in
  or_null (getProperty unitMappings normalized).

(** The spelling variants the mapping table lists for a unit. *)
Definition variants (u : Unit) : list string :=
  map fst (filter (fun kv => Unit_eqb (snd kv) u) unitMappings).

(** The built-ins on strings held as UTF-8 bytes: the letters [A]-[Z] are
    mapped to [a]-[z] and every other byte is kept, which is what
    [String.prototype.toLowerCase] does on ASCII text and on the letter mu of
    the table; [trim] removes the ASCII members of the white space and line
    terminator classes (tab, line feed, vertical tab, form feed, carriage
    return, space) from both ends. *)
Definition lower_ascii (c : ascii) : ascii :=
  let n := nat_of_ascii c in
  if ((65 <=? n) && (n <=? 90))%nat then ascii_of_nat (n + 32) else c.

Fixpoint lower_string (s : string) : string :=
  match s with
  | EmptyString => EmptyString
  | String c rest => String (lower_ascii c) (lower_string rest)
  end.

Definition is_space (c : ascii) : bool :=
  let n := nat_of_ascii c in
  ((9 <=? n) && (n <=? 13) || (n =? 32))%nat.

Fixpoint trim_start (s : string) : string :=
  match s with
  | String c rest => if is_space c then trim_start rest else s
  | EmptyString => EmptyString
  end.

(** [trim_end s] drops the trailing white space: a character is kept when it
    is not white space or when something is kept after it. *)
Fixpoint trim_end (s : string) : string :=
  match s with
  | EmptyString => EmptyString
  | String c rest =>
      match trim_end rest with
      | EmptyString => if is_space c then EmptyString else String c EmptyString
      | kept => String c kept
      end
  end.

#[export] Instance Utf8_JsString : JsString := {
  toLowerCase := lower_string;
  trim := fun s => trim_end (trim_start s)
}.


(** ** Derived notions for the further properties *)

(** The units whose factor is 0.001, as opposed to those whose factor is 1. *)
Definition microUnit (u : Unit) : bool :=
  match u with PPB | UG_L => true | MG_L | PPM => false end.

(** The magnitudes only the mg/L family finds plausible, and those only the
    ppb family does: the union of the mg/L ranges is 0.00001 to 10, that of
    the ppb ranges 0.01 to 10000. *)
Definition belowOverlap (v : Q) : bool := Qle_bool 0.00001 v && Qlt_bool v 0.01.
Definition aboveOverlap (v : Q) : bool := Qlt_bool 10 v && Qle_bool v 10000.

(** Strings made of the white space [trim] removes. *)
Fixpoint all_space (s : string) : bool :=
  match s with
  | EmptyString => true
  | String c rest => is_space c && all_space rest
  end.

(** ** The manual entry form *)

(** [isNaN], on the two number models: no rational is NaN. *)
Class JsNaN (num : Type) : Type := { isNaN : num -> bool }.

#[export] Instance Q_JsNaN : JsNaN Q := { isNaN := fun _ => false }.
#[export] Instance float_JsNaN : JsNaN float := { isNaN := PrimFloat.is_nan }.

(** [parseFloat], the built-in that reads the text of an input field. *)
Class JsParseFloat (num : Type) : Type := { parseFloat : string -> num }.

Definition Metal_eqb (a b : Metal) : bool :=
  match a, b with
  | Pb, Pb | As, As | Hg, Hg | Cd, Cd | Cr, Cr | Ni, Ni | Zn, Zn | Fe, Fe => true
  | _, _ => false
  end.

(** The assignment [object[metal] = v]: an existing property keeps its place
    and takes the new value, a new one is added last. *)
Fixpoint assign {A : Type} (metal : Metal) (v : A) (props : list (Metal * A))
  : list (Metal * A) :=
  match props with
  | [] => [(metal, v)]
  | (k, w) :: rest =>
      if Metal_eqb k metal then (k, v) :: rest else (k, w) :: assign metal v rest
  end.

(** The read [object[metal]] of an own property. *)
Fixpoint getMetal {A : Type} (metal : Metal) (props : list (Metal * A)) : option A :=
  match props with
  | [] => None
  | (k, w) :: rest => if Metal_eqb k metal then Some w else getMetal metal rest
  end.

(** A string is truthy when it is not empty. *)
Definition nonEmpty (s : string) : bool := negb (String.eqb s "").

Module SampleInputForm.

(** Modelled from the spec: [ConcentrationValue] and [SampleData] are declared
    in [types.ts], which is not part of the sources at hand; the fields are
    those of the object literals [handleSubmit] builds. *)
Record ConcentrationValue (num : Type) : Type := mkConcentrationValue {
  value : num;
  unit : Unit;
  mgLValue : num
}.

Record SampleData (num : Type) : Type := mkSampleData {
  id : string;
  latitude : num;
  longitude : num;
  concentrations : list (Metal * option num);
  originalConcentrations : list (Metal * option (ConcentrationValue num))
}.

(** What a submission does: it shows an alert and returns, or it hands a new
    sample to [onAddSample] (and then empties the form). *)
Inductive Outcome (num : Type) : Type :=
| Alert (message : string)
| AddSample (newSample : SampleData num).

Arguments Alert {num} message.

Section Form.
Context {num : Type} `{JsNumber num} `{JsNaN num} `{JsParseFloat num} `{JsString}.

(** Modelled from the spec: [AVAILABLE_METALS] is a constant of [constants.ts],
    which is not part of the sources at hand; it is taken as a parameter. *)
Variable AVAILABLE_METALS : list Metal.

Local Open Scope js_scope.

(** The test the loop applies to one parsed field. *)
Definition accepted (val : num) : bool := negb (isNaN val) && (val >? lit 0).

(** The [for ... of] loop over the metals, as a fold over the three variables
    it updates. *)
Definition readConcentrations (concentrations : Metal -> string) (selectedUnit : Unit)
  : list (Metal * option num) * list (Metal * option (ConcentrationValue num)) * bool :=
  fold_left
    (fun state metal =>
       let '(numericConcentrations, originalConcentrations, hasConcentration) := state in
       let val := parseFloat (concentrations metal) in
       if negb (isNaN val) && (val >? lit 0) then
         let mgLValue := convertToMgL (mkConcentration val selectedUnit) in
         (assign metal (Some mgLValue) numericConcentrations,
          assign metal (Some (mkConcentrationValue val selectedUnit mgLValue))
            originalConcentrations,
          true)
       else state)
    AVAILABLE_METALS ([], [], false).

(** [x ?? 0] *)
Definition orZero (x : option num) : num :=
  match x with Some v => v | None => lit 0 end.

(** [handleSubmit], given the identifier the clock and the random generator
    produce and the four state variables of the component. *)
Definition handleSubmit (freshId : string) (latitude longitude : string)
  (concentrations : Metal -> string) (selectedUnit : Unit) : Outcome num :=
  let lat := if nonEmpty (trim latitude) then Some (parseFloat latitude) else None in
  let lon := if nonEmpty (trim longitude) then Some (parseFloat longitude) else None in
  if (nonEmpty (trim latitude) && negb (nonEmpty (trim longitude)))
     || (negb (nonEmpty (trim latitude)) && nonEmpty (trim longitude))
  then Alert "Please enter both latitude and longitude, or leave both empty."
  else
    if match lat, lon with
       | Some lat, Some lon => isNaN lat || isNaN lon
       | _, _ => false
       end
    then Alert "Please enter valid latitude and longitude."
    else
      let '(numericConcentrations, originalConcentrations, hasConcentration) :=
        readConcentrations concentrations selectedUnit in
      if negb hasConcentration
      then Alert "Please enter at least one metal concentration."
      else
        AddSample
          (mkSampleData freshId (orZero lat) (orZero lon)
             numericConcentrations originalConcentrations).

End Form.

(** The part of a stored sample [detectUnitForDataset] reads. *)
Definition asSample {num : Type} (d : SampleData num) : Sample num :=
  mkSample (concentrations d).

End SampleInputForm.

(** A few values of [parseFloat], for the examples: the texts below denote the
    doubles shown, and the empty field (like any text that does not start
    with a number) gives NaN. *)
Definition parseFloat_table (s : string) : float :=
  if String.eqb s "80" then 80%float
  else if String.eqb s "0.5" then 0.5%float
  else if String.eqb s "-3" then (-3)%float
  else if String.eqb s "12.5" then 12.5%float
  else if String.eqb s "77.1" then 77.1%float
  else if String.eqb s "5e-324" then 5e-324%float
  else nan.

Definition table_JsParseFloat : JsParseFloat float := {| parseFloat := parseFloat_table |}.

(** The fields of a form filled for the examples: lead 80, chromium 0.5,
    mercury -3, zinc the least positive double, the others left empty. *)
Definition fields_example (m : Metal) : string :=
  match m with
  | Pb => "80"
  | Cr => "0.5"
  | Hg => "-3"
  | Zn => "5e-324"
  | _ => ""
  end.

(** ** Notions used to reason on binary64 *)

(** The number one, as the specification of binary64 represents it. *)
Definition SF_one : spec_float := S754_finite false 4503599627370496 (-52).

(** The state of the rounding shifter holding a mantissa and no lost bit. *)
Definition exact_record (m : positive) : shr_record :=
  {| shr_m := Zpos m; shr_r := false; shr_s := false |}.

(** * Properties *)

(** ** The detector's loops, read as list functions *)

Section DetectorFacts.
Context {num : Type} `{JsNumber num}.
Local Open Scope js_scope.

Lemma collect_inner (vals : list (option num)) (acc : list num) :
  fold_left
    (fun allValues value =>
       match value with
       | Some v => if v >? lit 0 then allValues ++ [v] else allValues
       | None => allValues
       end) vals acc
  = acc ++ flat_map
       (fun value : option num =>
          match value with
          | Some v => if v >? lit 0 then [v] else []
          | None => []
          end) vals.
Proof.
  revert acc; induction vals as [|[v|] vals IH]; intros acc; simpl.
  - now rewrite app_nil_r.
  - rewrite IH. destruct (v >? lit 0); simpl.
    + now rewrite <- app_assoc.
    + reflexivity.
  - apply IH.
Qed.

Lemma collect_outer (samples : list (Sample num)) (acc : list num) :
  fold_left
    (fun allValues sample =>
       fold_left
         (fun allValues value =>
            match value with
            | Some v => if v >? lit 0 then allValues ++ [v] else allValues
            | None => allValues
            end)
         (map snd (concentrations sample)) allValues)
    samples acc
  = acc ++ flat_map positives samples.
Proof.
  revert acc; induction samples as [|s samples IH]; intros acc; simpl.
  - now rewrite app_nil_r.
  - rewrite IH, collect_inner. unfold positives. now rewrite <- app_assoc.
Qed.

Lemma collectValues_flat_map (samples : list (Sample num)) :
  collectValues samples = flat_map positives samples.
Proof. unfold collectValues. now rewrite collect_outer. Qed.

Lemma In_positives (s : Sample num) (v : num) :
  In v (positives s) <->
  (exists m, In (m, Some v) (concentrations s)) /\ (v >? lit 0) = true.
Proof.
  unfold positives. rewrite in_flat_map. split.
  - intros [[x|] [Hin Hv]]; [|contradiction].
    destruct (x >? lit 0) eqn:E; [|contradiction].
    destruct Hv as [->|[]]. split; [|exact E].
    apply in_map_iff in Hin. destruct Hin as [[m o] [Ho Hin]].
    simpl in Ho; subst o. now exists m.
  - intros [[m Hin] Hpos]. exists (Some v). split.
    + apply in_map_iff. now exists (m, Some v).
    + rewrite Hpos. now left.
Qed.

Lemma In_collectValues (samples : list (Sample num)) (v : num) :
  In v (collectValues samples) <->
  (exists s m, In s samples /\ In (m, Some v) (concentrations s))
  /\ (v >? lit 0) = true.
Proof.
  rewrite collectValues_flat_map, in_flat_map. split.
  - intros [s [Hs Hv]]. apply In_positives in Hv. destruct Hv as [[m Hm] Hp].
    split; [|exact Hp]. now exists s, m.
  - intros [[s [m [Hs Hm]]] Hp]. exists s. split; [exact Hs|].
    apply In_positives. split; [now exists m | exact Hp].
Qed.

(** The flag of the innermost loop is an existential over the metals. *)
Lemma flag_fold (p : Metal -> bool) (ms : list Metal) (b : bool) :
  fold_left (fun fits m => if p m then true else fits) ms b = b || existsb p ms.
Proof.
  revert b; induction ms as [|m ms IH]; intros b; simpl.
  - now rewrite orb_false_r.
  - rewrite IH. destruct (p m), b; reflexivity.
Qed.

Lemma fitsInAnyRange_existsb (value : num) (unit : Unit) :
  fitsInAnyRange value unit = existsb (inRange value unit) AVAILABLE_METALS.
Proof.
  unfold fitsInAnyRange.
  transitivity
    (fold_left (fun fits m => if inRange value unit m then true else fits)
       AVAILABLE_METALS false).
  - reflexivity.
  - exact (flag_fold (inRange value unit) AVAILABLE_METALS false).
Qed.

(** Units of one magnitude family have the same ranges, hence the same flag. *)
Lemma fits_MG_L_PPM (value : num) :
  fitsInAnyRange value MG_L = fitsInAnyRange value PPM.
Proof. reflexivity. Qed.

Lemma fits_PPB_UG_L (value : num) :
  fitsInAnyRange value PPB = fitsInAnyRange value UG_L.
Proof. reflexivity. Qed.

(** One round of the scoring loop adds one to the units the value fits. *)
Lemma scoreValue_unit (scores : Unit -> nat) (value : num) (u : Unit) :
  scoreValue scores value u
  = (scores u + if fitsInAnyRange value u then 1 else 0)%nat.
Proof.
  unfold scoreValue, AVAILABLE_UNITS, fold_left, incr.
  destruct u;
    destruct (fitsInAnyRange value MG_L), (fitsInAnyRange value PPM),
             (fitsInAnyRange value PPB), (fitsInAnyRange value UG_L);
    simpl; lia.
Qed.

Lemma fold_scoreValue (values : list num) (scores : Unit -> nat) (u : Unit) :
  fold_left scoreValue values scores u
  = (scores u + List.length (filter (fun v => fitsInAnyRange v u) values))%nat.
Proof.
  revert scores; induction values as [|v values IH]; intros scores; simpl.
  - lia.
  - rewrite IH, scoreValue_unit.
    destruct (fitsInAnyRange v u); simpl; lia.
Qed.

(** A unit's score is the number of collected values that fit it. *)
Lemma unitScores_count (values : list num) (u : Unit) :
  unitScores values u
  = List.length (filter (fun v => fitsInAnyRange v u) values).
Proof. unfold unitScores. now rewrite fold_scoreValue. Qed.

Lemma unitScores_nil (u : Unit) : unitScores (@nil num) u = 0%nat.
Proof. reflexivity. Qed.

Lemma unitScores_MG_L_PPM (values : list num) :
  unitScores values MG_L = unitScores values PPM.
Proof. rewrite !unitScores_count. reflexivity. Qed.

Lemma unitScores_PPB_UG_L (values : list num) :
  unitScores values PPB = unitScores values UG_L.
Proof. rewrite !unitScores_count. reflexivity. Qed.

(** Decide the comparisons of the unrolled selection loop, innermost first. *)
Ltac unroll_selection :=
  repeat match goal with
         | |- context [(?a <? ?b)%nat] =>
             lazymatch a with
             | context [if _ then _ else _] => fail
             | _ => destruct (Nat.ltb_spec a b); cbn [fst snd] in *
             end
         end.

(** The selection loop, unrolled over the four units. *)
Lemma selectBest_max (scores : Unit -> nat) (u : Unit) :
  (scores u <= scores (selectBest scores))%nat.
Proof.
  unfold selectBest, AVAILABLE_UNITS, fold_left.
  unroll_selection; destruct u; lia.
Qed.

Lemma selectBest_earliest (scores : Unit -> nat) (u : Unit) :
  scores u = scores (selectBest scores) ->
  (unit_index (selectBest scores) <= unit_index u)%nat.
Proof.
  unfold selectBest, AVAILABLE_UNITS, fold_left.
  unroll_selection; destruct u; simpl; lia.
Qed.

(** Both early returns agree with the selection loop run on the (empty)
    collection: the function is the loop in every case. *)
Lemma detect_is_selectBest (samples : list (Sample num)) :
  detectUnitForDataset samples = selectBest (unitScores (collectValues samples)).
Proof.
  unfold detectUnitForDataset.
  destruct samples as [|s samples]; [reflexivity|].
  cbn [List.length Nat.eqb].
  destruct (collectValues (s :: samples)) as [|v values]; reflexivity.
Qed.

Lemma detect_no_values (samples : list (Sample num)) :
  collectValues samples = [] -> detectUnitForDataset samples = MG_L.
Proof.
  intros E. rewrite detect_is_selectBest, E. reflexivity.
Qed.

Lemma selectBest_families (scores : Unit -> nat) :
  scores MG_L = scores PPM -> scores PPB = scores UG_L ->
  selectBest scores = MG_L \/ selectBest scores = PPB.
Proof.
  intros E1 E2. unfold selectBest, AVAILABLE_UNITS, fold_left.
  unroll_selection; solve [now left | now right | lia].
Qed.

Lemma selectBest_low_family (scores : Unit -> nat) :
  (scores MG_L < scores PPB)%nat -> (scores PPM < scores PPB)%nat ->
  scores UG_L = scores PPB ->
  selectBest scores = PPB.
Proof.
  intros L1 L2 E. unfold selectBest, AVAILABLE_UNITS, fold_left.
  unroll_selection; solve [reflexivity | lia].
Qed.

Lemma ranges_MG_L_PPM (m : Metal) : TYPICAL_RANGES m MG_L = TYPICAL_RANGES m PPM.
Proof. destruct m; reflexivity. Qed.

Lemma ranges_PPB_UG_L (m : Metal) : TYPICAL_RANGES m PPB = TYPICAL_RANGES m UG_L.
Proof. destruct m; reflexivity. Qed.

Lemma detect_no_positive (samples : list (Sample num)) :
  (forall s m v, In s samples -> In (m, Some v) (concentrations s) ->
                 (v >? lit 0) = false) ->
  detectUnitForDataset samples = MG_L.
Proof.
  intros Hnp. apply detect_no_values.
  destruct (collectValues samples) as [|v values] eqn:E; [reflexivity|].
  assert (Hin : In v (collectValues samples)) by (rewrite E; now left).
  apply In_collectValues in Hin. destruct Hin as [[s [m [Hs Hm]]] Hp].
  rewrite (Hnp s m v Hs Hm) in Hp. discriminate.
Qed.

(** When every collected value fits a unit its score is their number, and
    when none does it is zero. *)
Lemma unitScores_all (values : list num) (u : Unit) :
  (forall v, In v values -> fitsInAnyRange v u = true) ->
  unitScores values u = List.length values.
Proof.
  intros Hall. rewrite unitScores_count. f_equal.
  induction values as [|v values IH]; [reflexivity|]. simpl.
  rewrite (Hall v (or_introl eq_refl)). f_equal.
  apply IH. intros w Hw. apply Hall. now right.
Qed.

Lemma unitScores_none (values : list num) (u : Unit) :
  (forall v, In v values -> fitsInAnyRange v u = false) ->
  unitScores values u = 0%nat.
Proof.
  intros Hnone. rewrite unitScores_count.
  induction values as [|v values IH]; [reflexivity|]. simpl.
  rewrite (Hnone v (or_introl eq_refl)).
  apply IH. intros w Hw. apply Hnone. now right.
Qed.

(** ** The detector, for every number model *)

(** C3. Tie-break of [detectUnitForDataset]: the selection loop, started at
    [MG_L] with [MG_L]'s score and replacing its candidate on a strictly
    greater score only, returns for every score table a unit of maximal
    score that precedes, in the enumeration order MG_L, PPM, PPB, UG_L, every
    other unit of that same score; and the unit [detectUnitForDataset]
    returns has exactly this property for the scores of the values it
    collected. *)
Theorem detect_tie_break_earliest :
  (forall scores : Unit -> nat,
      (forall u, scores u <= scores (selectBest scores))%nat /\
      (forall u, scores u = scores (selectBest scores) ->
                 unit_index (selectBest scores) <= unit_index u)%nat) /\
  (forall samples : list (Sample num),
      let scores := unitScores (collectValues samples) in
      let best := detectUnitForDataset samples in
      (forall u, scores u <= scores best)%nat /\
      (forall u, scores u = scores best -> unit_index best <= unit_index u)%nat).
Proof.
  split.
  - intros scores. split; intros u.
    + apply selectBest_max.
    + apply selectBest_earliest.
  - intros samples scores best. subst best.
    rewrite detect_is_selectBest. fold scores. split; intros u.
    + apply selectBest_max.
    + apply selectBest_earliest.
Qed.

(** C10. [detectUnitForDataset] only ever answers MG_L or PPB: for every
    metal the MG_L and PPM ranges coincide and so do the PPB and UG_L ranges,
    hence the scores are pairwise equal and the strict comparison keeps the
    earlier unit of each pair. *)
Theorem detect_never_PPM_nor_UG_L (samples : list (Sample num)) :
  (detectUnitForDataset samples = MG_L \/ detectUnitForDataset samples = PPB) /\
  detectUnitForDataset samples <> PPM /\
  detectUnitForDataset samples <> UG_L /\
  (forall m, TYPICAL_RANGES m MG_L = TYPICAL_RANGES m PPM) /\
  (forall m, TYPICAL_RANGES m PPB = TYPICAL_RANGES m UG_L) /\
  unitScores (collectValues samples) MG_L = unitScores (collectValues samples) PPM /\
  unitScores (collectValues samples) PPB = unitScores (collectValues samples) UG_L.
Proof.
  assert (D : detectUnitForDataset samples = MG_L \/
              detectUnitForDataset samples = PPB).
  { rewrite detect_is_selectBest. apply selectBest_families.
    - apply unitScores_MG_L_PPM.
    - apply unitScores_PPB_UG_L. }
  split; [exact D|].
  split; [destruct D as [-> | ->]; discriminate|].
  split; [destruct D as [-> | ->]; discriminate|].
  split; [exact ranges_MG_L_PPM|].
  split; [exact ranges_PPB_UG_L|].
  split; [apply unitScores_MG_L_PPM | apply unitScores_PPB_UG_L].
Qed.

(** C8. The [metal] argument of [getBestDisplayUnit] has no influence on its
    result. *)
Theorem getBestDisplayUnit_ignores_metal (v : num) (u : Unit) (m1 m2 : Metal) :
  getBestDisplayUnit v u m1 = getBestDisplayUnit v u m2.
Proof. unfold getBestDisplayUnit. reflexivity. Qed.

End DetectorFacts.

(** ** Exact arithmetic *)

Section Exact.
Local Open Scope Q_scope.

Lemma Qlt_bool_iff (x y : Q) : Qlt_bool x y = true <-> x < y.
Proof.
  unfold Qlt_bool. destruct (Qle_bool y x) eqn:E; simpl.
  - apply Qle_bool_iff in E. split; [discriminate | intros L; lra].
  - split; [intros _ | reflexivity].
    destruct (Qlt_le_dec x y) as [L|L]; [exact L|].
    apply Qle_bool_iff in L. congruence.
Qed.

Lemma Qlt_bool_false (x y : Q) : Qlt_bool x y = false <-> y <= x.
Proof.
  unfold Qlt_bool. rewrite negb_false_iff. apply Qle_bool_iff.
Qed.

Lemma Qle_bool_false (x y : Q) : Qle_bool x y = false <-> y < x.
Proof.
  rewrite <- Qlt_bool_iff. unfold Qlt_bool.
  destruct (Qle_bool x y); simpl; intuition congruence.
Qed.

(** What the comparisons of [getBestDisplayUnit] and of the range test mean
    on rationals. *)
Ltac q_compare :=
  repeat match goal with
         | H : Qlt_bool _ _ = true |- _ => apply Qlt_bool_iff in H
         | H : Qlt_bool _ _ = false |- _ => apply Qlt_bool_false in H
         | H : Qle_bool _ _ = true |- _ => apply Qle_bool_iff in H
         | H : Qle_bool _ _ = false |- _ => apply Qle_bool_false in H
         end.

Lemma convertUnit_Q (v : Q) (u1 u2 : Unit) :
  convertUnit v u1 u2 == v * toMgL (UNIT_INFO u1) / toMgL (UNIT_INFO u2).
Proof. destruct u1, u2; cbn; field. Qed.

Lemma toMgL_Q_pos (u : Unit) : 0 < toMgL (UNIT_INFO (num:=Q) u).
Proof. destruct u; cbn; lra. Qed.

Lemma convertUnit_Q_scaled (v : Q) (u1 u2 : Unit) :
  convertUnit v u1 u2 * toMgL (UNIT_INFO u2) == v * toMgL (UNIT_INFO u1).
Proof.
  rewrite convertUnit_Q. pose proof (toMgL_Q_pos u2). field. lra.
Qed.

Lemma convertUnit_Q_same_family (v : Q) :
  convertUnit v MG_L PPM == v /\ convertUnit v PPB UG_L == v.
Proof. split; cbn; field. Qed.

Lemma getBestDisplayUnit_cases (v : Q) (u : Unit) (m : Metal) :
  let mgLValue := convertUnit v u MG_L in
  (mgLValue < 0.0001 /\ getBestDisplayUnit v u m = UG_L) \/
  (0.0001 <= mgLValue /\ mgLValue < 0.001 /\ getBestDisplayUnit v u m = PPB) \/
  (0.001 <= mgLValue /\ getBestDisplayUnit v u m = MG_L).
Proof.
  intros mgLValue. unfold getBestDisplayUnit. fold mgLValue.
  assert (P : convertUnit mgLValue MG_L PPB == 1000 * mgLValue)
    by (cbn; field).
  cbn [ltb geb lit Q_JsNumber].
  destruct (Qlt_bool mgLValue 0.001) eqn:L.
  - destruct (Qle_bool 0.1 (convertUnit mgLValue MG_L PPB)) eqn:G; q_compare.
    + right; left. repeat split; try reflexivity; lra.
    + left. split; [lra | reflexivity].
  - destruct (Qle_bool 0.001 mgLValue) eqn:G; q_compare.
    + right; right. split; [lra | reflexivity].
    + lra.
Qed.

Lemma getBestDisplayUnit_Q (v : Q) (u : Unit) (m : Metal) :
  let mgLValue := convertUnit v u MG_L in
  getBestDisplayUnit v u m <> PPM /\
  (getBestDisplayUnit v u m = UG_L <-> mgLValue < 0.0001) /\
  (getBestDisplayUnit v u m = PPB <-> 0.0001 <= mgLValue /\ mgLValue < 0.001) /\
  (getBestDisplayUnit v u m = MG_L <-> 0.001 <= mgLValue).
Proof.
  intros mgLValue.
  destruct (getBestDisplayUnit_cases v u m) as [[A E]|[[A [B E]]|[A E]]];
    fold mgLValue in A; try fold mgLValue in B; rewrite E;
    (split; [discriminate|]); repeat split;
    try discriminate; try reflexivity; try tauto; intros; lra.
Qed.

Lemma detect_nonpositive_Q (samples : list (Sample Q)) :
  (forall s m v, In s samples -> In (m, Some v) (concentrations s) -> v <= 0) ->
  detectUnitForDataset samples = MG_L.
Proof.
  intros Hnp. apply detect_no_positive.
  intros s m v Hs Hm. cbn. apply Qlt_bool_false. exact (Hnp s m v Hs Hm).
Qed.

Lemma fits_50_500 (v : Q) :
  50 <= v <= 500 ->
  fitsInAnyRange v MG_L = false /\ fitsInAnyRange v PPM = false /\
  fitsInAnyRange v PPB = true /\ fitsInAnyRange v UG_L = true.
Proof.
  intros [Lo Hi].
  assert (Low : forall m, inRange v MG_L m = false).
  { intros m. unfold inRange. apply andb_false_iff. right.
    apply Qle_bool_false. destruct m; cbn; lra. }
  assert (High : inRange v PPB Zn = true).
  { unfold inRange. apply andb_true_iff.
    split; apply Qle_bool_iff; cbn; lra. }
  assert (F1 : fitsInAnyRange v MG_L = false).
  { rewrite fitsInAnyRange_existsb.
    destruct (existsb (inRange v MG_L) AVAILABLE_METALS) eqn:E; [|reflexivity].
    apply existsb_exists in E. destruct E as [m [_ E]].
    rewrite Low in E. discriminate. }
  assert (F2 : fitsInAnyRange v PPB = true).
  { rewrite fitsInAnyRange_existsb. apply existsb_exists.
    exists Zn. split; [|exact High]. simpl. tauto. }
  rewrite <- fits_MG_L_PPM, <- fits_PPB_UG_L. tauto.
Qed.

Lemma detect_50_500_Q (samples : list (Sample Q)) :
  (forall s m v, In s samples -> In (m, Some v) (concentrations s) ->
                 50 <= v <= 500) ->
  (exists s m v, In s samples /\ In (m, Some v) (concentrations s)) ->
  let scores := unitScores (collectValues samples) in
  (scores MG_L < scores PPB)%nat /\ (scores PPM < scores PPB)%nat /\
  (scores MG_L < scores UG_L)%nat /\ (scores PPM < scores UG_L)%nat /\
  scores MG_L = 0%nat /\ scores PPM = 0%nat /\
  scores PPB = List.length (collectValues samples) /\
  scores UG_L = List.length (collectValues samples) /\
  detectUnitForDataset samples = PPB.
Proof.
  intros Hrange [s [m [v [Hs Hm]]]] scores.
  assert (Hall : forall w, In w (collectValues samples) -> 50 <= w <= 500).
  { intros w Hw. apply In_collectValues in Hw.
    destruct Hw as [[s' [m' [Hs' Hm']]] _]. exact (Hrange s' m' w Hs' Hm'). }
  assert (Hv : In v (collectValues samples)).
  { apply In_collectValues. split; [now exists s, m|].
    cbn. apply Qlt_bool_iff. pose proof (Hrange s m v Hs Hm). lra. }
  assert (Hlen : (0 < List.length (collectValues samples))%nat).
  { destruct (collectValues samples); [contradiction | simpl; lia]. }
  assert (S1 : scores MG_L = 0%nat)
    by (apply unitScores_none; intros w Hw; apply fits_50_500; auto).
  assert (S2 : scores PPM = 0%nat)
    by (apply unitScores_none; intros w Hw; apply fits_50_500; auto).
  assert (S3 : scores PPB = List.length (collectValues samples))
    by (apply unitScores_all; intros w Hw; apply fits_50_500; auto).
  assert (S4 : scores UG_L = List.length (collectValues samples))
    by (apply unitScores_all; intros w Hw; apply fits_50_500; auto).
  repeat (split; [lia|]).
  rewrite detect_is_selectBest. fold scores.
  apply selectBest_low_family; lia.
Qed.

End Exact.

(** ** Binary64 *)

(** The facts below rest on the specification of the primitive floating-point
    operations ([mul_spec], [div_spec], [ltb_spec], ...), which relates them
    to the functions of [SpecFloat]. *)

Section Binary64.

(** The literals of the source, read by [float_lit], are the doubles the
    decimal notation denotes. *)
Example float_lit_literals :
  map float_lit [0; 1; 0.00001; 0.0001; 0.001; 0.01; 0.1; 0.2; 0.5; 5; 10;
                 100; 200; 500; 5000; 10000]%Q
  = [0; 1; 0.00001; 0.0001; 0.001; 0.01; 0.1; 0.2; 0.5; 5; 10;
     100; 200; 500; 5000; 10000]%float.
Proof. reflexivity. Qed.

Lemma iter_pos_nat {A : Type} (f : A -> A) (p : positive) (x : A) :
  iter_pos f p x = Nat.iter (Pos.to_nat p) f x.
Proof.
  revert x; induction p as [p IH|p IH|]; intros x; cbn [iter_pos].
  - rewrite !IH, Pos2Nat.inj_xI, <- Nat.iter_add, <- Nat.iter_succ_r.
    f_equal. lia.
  - rewrite !IH, Pos2Nat.inj_xO, <- Nat.iter_add. f_equal. lia.
  - reflexivity.
Qed.

Lemma shr_1_iter_xO (n : nat) (m : positive) :
  Nat.iter n shr_1 (exact_record (Nat.iter n xO m)) = exact_record m.
Proof.
  induction n as [|n IH]; [reflexivity|].
  rewrite Nat.iter_succ_r. simpl. exact IH.
Qed.

Lemma digits2_iter_xO (n : nat) (m : positive) :
  Zpos (digits2_pos (Nat.iter n xO m)) = (Zpos (digits2_pos m) + Z.of_nat n)%Z.
Proof.
  induction n as [|n IH]; simpl Nat.iter.
  - simpl. lia.
  - cbn [digits2_pos]. rewrite Pos2Z.inj_succ, IH. lia.
Qed.

Lemma bounded_inv (m : positive) (e : Z) :
  bounded prec emax m e = true ->
  fexp prec emax (Zpos (digits2_pos m) + e) = e /\ (e <= emax - prec)%Z.
Proof.
  unfold bounded, canonical_mantissa. intros B.
  apply andb_true_iff in B. destruct B as [C L].
  apply Z.eqb_eq in C. apply Z.leb_le in L. now split.
Qed.

(** Rounding a mantissa that is a valid one shifted left by [n] bits, with
    the exponent lowered by [n], gives the valid number back. *)
Lemma binary_round_aux_shifted (s : bool) (m : positive) (e : Z) (n : nat) :
  bounded prec emax m e = true ->
  binary_round_aux prec emax s (Zpos (Nat.iter n xO m)) (e - Z.of_nat n) loc_Exact
  = S754_finite s m e.
Proof.
  intros B. destruct (bounded_inv _ _ B) as [C L].
  unfold binary_round_aux, shr_fexp.
  cbn [Zdigits2 shr_record_of_loc].
  rewrite digits2_iter_xO.
  replace (Zpos (digits2_pos m) + Z.of_nat n + (e - Z.of_nat n))%Z
    with (Zpos (digits2_pos m) + e)%Z by lia.
  rewrite C.
  replace (e - (e - Z.of_nat n))%Z with (Z.of_nat n) by lia.
  assert (S1 : shr {| shr_m := Zpos (Nat.iter n xO m); shr_r := false; shr_s := false |}
                 (e - Z.of_nat n) (Z.of_nat n) = (exact_record m, e)).
  { destruct n as [|n].
    - simpl. f_equal. lia.
    - unfold shr. cbn [Z.of_nat]. rewrite iter_pos_nat, SuccNat2Pos.id_succ.
      change {| shr_m := Zpos (Nat.iter (S n) xO m); shr_r := false; shr_s := false |}
        with (exact_record (Nat.iter (S n) xO m)).
      rewrite shr_1_iter_xO. f_equal. lia. }
  rewrite S1. cbn [exact_record shr_m loc_of_shr_record round_nearest_even Zdigits2 shr_record_of_loc].
  rewrite C, Z.sub_diag. cbn [shr shr_m].
  apply Z.leb_le in L. rewrite L. reflexivity.
Qed.

Lemma SFmul_one (x : spec_float) :
  valid_binary x = true -> SFmul prec emax x SF_one = x.
Proof.
  destruct x as [s|s| |s m e]; simpl; intros V;
    try (destruct s; reflexivity); try reflexivity.
  rewrite xorb_false_r, Pos.mul_comm.
  exact (binary_round_aux_shifted s m e 52 V).
Qed.

Lemma div_eucl_exact (a b : Z) : (0 < b)%Z -> Z.div_eucl (a * b) b = (a, 0%Z).
Proof.
  intros Hb.
  assert (E : Z.div_eucl (a * b) b = ((a * b) / b, (a * b) mod b)%Z).
  { unfold Z.div, Z.modulo. destruct (Z.div_eucl (a * b) b). reflexivity. }
  rewrite E, Z.div_mul, Z.mod_mul by lia. reflexivity.
Qed.

Lemma SFdiv_one (x : spec_float) :
  valid_binary x = true -> SFdiv prec emax x SF_one = x.
Proof.
  destruct x as [s|s| |s m e]; simpl; intros V;
    try (destruct s; reflexivity); try reflexivity.
  rewrite xorb_false_r.
  destruct (bounded_inv _ _ V) as [C L].
  unfold SFdiv_core_binary. cbn [Zdigits2].
  change (Zpos (digits2_pos 4503599627370496)) with 53%Z.
  assert (Dpos : (0 < Zpos (digits2_pos m))%Z) by lia.
  assert (K : ((e = -1074 /\
               Z.min (fexp prec emax (Zpos (digits2_pos m) + e - (53 + -52))) (e - -52) = e) \/
              (Z.min (fexp prec emax (Zpos (digits2_pos m) + e - (53 + -52))) (e - -52) = e - 1))%Z).
  { revert C. unfold fexp, emin. change prec with 53%Z. change emax with 1024%Z. lia. }
  destruct K as [[E K]|K]; rewrite K.
  - replace (e - -52 - e)%Z with 52%Z by lia.
    rewrite Z.shiftl_mul_pow2 by lia. change (2 ^ 52)%Z with 4503599627370496%Z.
    rewrite div_eucl_exact by lia.
    change (new_location 4503599627370496 0) with loc_Exact.
    replace e with (e - Z.of_nat 0)%Z at 1 by (simpl; lia).
    exact (binary_round_aux_shifted s m e 0 V).
  - replace (e - -52 - (e - 1))%Z with 53%Z by lia.
    rewrite Z.shiftl_mul_pow2 by lia.
    replace (Zpos m * 2 ^ 53)%Z with (Zpos (m~0) * 4503599627370496)%Z by lia.
    rewrite div_eucl_exact by lia.
    change (new_location 4503599627370496 0) with loc_Exact.
    exact (binary_round_aux_shifted s m e 1 V).
Qed.

Lemma float_mul_one (v : float) : (v * 1)%float = v.
Proof.
  apply Prim2SF_inj. rewrite mul_spec.
  change (Prim2SF 1) with SF_one. apply SFmul_one, Prim2SF_valid.
Qed.

Lemma float_div_one (v : float) : (v / 1)%float = v.
Proof.
  apply Prim2SF_inj. rewrite div_spec.
  change (Prim2SF 1) with SF_one. apply SFdiv_one, Prim2SF_valid.
Qed.

Lemma convertUnit_MG_L_PPM_float (v : float) :
  convertUnit (num:=float) v MG_L PPM = v /\ convertUnit (num:=float) v PPM MG_L = v.
Proof.
  unfold convertUnit. cbn [Unit_eqb UNIT_INFO toMgL mul div float_JsNumber lit].
  change (float_lit 1) with 1%float.
  now rewrite float_mul_one, float_div_one.
Qed.

Lemma SFcompare_swap (x y : spec_float) :
  SFcompare y x = option_map CompOpp (SFcompare x y).
Proof.
  destruct x as [sx|sx| |sx mx ex], y as [sy|sy| |sy my ey]; simpl;
    try destruct sx; try destruct sy; try reflexivity;
    rewrite (Z.compare_antisym ex ey); destruct (ex ?= ey)%Z; simpl;
    try reflexivity;
    change (Pos.compare_cont Eq my mx) with (Pos.compare my mx);
    change (Pos.compare_cont Eq mx my) with (Pos.compare mx my);
    rewrite (Pos.compare_antisym mx my); destruct (mx ?= my)%positive; reflexivity.
Qed.

(** A number that is neither below a bound nor at least that bound is NaN. *)
Lemma unordered_nan (x c : float) :
  PrimFloat.ltb x c = false -> PrimFloat.leb c x = false ->
  PrimFloat.eqb c c = true ->
  x = nan.
Proof.
  rewrite ltb_spec, leb_spec, FloatAxioms.eqb_spec. unfold SFltb, SFleb, SFeqb.
  rewrite (SFcompare_swap (Prim2SF x) (Prim2SF c)).
  intros L G C.
  apply Prim2SF_inj. change (Prim2SF nan) with S754_nan.
  destruct (Prim2SF x) as [sx|sx| |sx mx ex] eqn:X; [ | |reflexivity| ];
    destruct (Prim2SF c) as [sc|sc| |sc mc ec]; try discriminate;
    simpl in L, G;
    repeat match type of L with
           | context [match ?d with _ => _ end] => destruct d; simpl in L, G
           end;
    try discriminate.
Qed.

(** Shifting right keeps a mantissa non-negative. *)
Lemma shr_1_nonneg (r : shr_record) : (0 <= shr_m r)%Z -> (0 <= shr_m (shr_1 r))%Z.
Proof.
  destruct r as [m r s]. simpl.
  destruct m as [|p|p]; [simpl; lia | | lia].
  destruct p; simpl; lia.
Qed.

Lemma shr_nonneg (r : shr_record) (e n : Z) :
  (0 <= shr_m r)%Z -> (0 <= shr_m (fst (shr r e n)))%Z.
Proof.
  intros Hr. destruct n as [|p|p]; simpl; try exact Hr.
  rewrite iter_pos_nat.
  induction (Pos.to_nat p) as [|k IH]; simpl; [exact Hr|].
  now apply shr_1_nonneg.
Qed.

Lemma shr_record_of_loc_m (m : Z) (l : location) : shr_m (shr_record_of_loc m l) = m.
Proof. destruct l as [|[]]; reflexivity. Qed.

Lemma round_nearest_even_nonneg (m : Z) (l : location) :
  (0 <= m)%Z -> (0 <= round_nearest_even m l)%Z.
Proof.
  intros Hm. destruct l as [|[]]; simpl; try lia.
  destruct (Z.even m); lia.
Qed.

(** Rounding a non-negative mantissa never produces NaN. *)
Lemma binary_round_aux_not_nan (s : bool) (m e : Z) (l : location) :
  (0 <= m)%Z -> binary_round_aux prec emax s m e l <> S754_nan.
Proof.
  intros Hm. unfold binary_round_aux, shr_fexp.
  pose proof (shr_nonneg (shr_record_of_loc m l) e
                (fexp prec emax (Zdigits2 m + e) - e)) as N1.
  rewrite shr_record_of_loc_m in N1. specialize (N1 Hm).
  destruct (shr (shr_record_of_loc m l) e (fexp prec emax (Zdigits2 m + e) - e))
    as [mrs' e'].
  simpl fst in N1.
  set (m1 := round_nearest_even (shr_m mrs') (loc_of_shr_record mrs')).
  assert (N2 : (0 <= m1)%Z) by now apply round_nearest_even_nonneg.
  pose proof (shr_nonneg (shr_record_of_loc m1 loc_Exact) e'
                (fexp prec emax (Zdigits2 m1 + e') - e')) as N3.
  rewrite shr_record_of_loc_m in N3. specialize (N3 N2).
  destruct (shr (shr_record_of_loc m1 loc_Exact) e'
              (fexp prec emax (Zdigits2 m1 + e') - e')) as [mrs'' e''].
  simpl fst in N3.
  destruct (shr_m mrs'') as [|p|p]; [discriminate| |lia].
  destruct (e'' <=? emax - prec)%Z; discriminate.
Qed.

(** Scaling by a finite constant yields NaN for NaN only. *)
Lemma float_mul_finite_nan (v c : float) (s : bool) (m : positive) (e : Z) :
  Prim2SF c = S754_finite s m e -> (v * c)%float = nan -> v = nan.
Proof.
  intros Hc Hn. apply Prim2SF_inj. change (Prim2SF nan) with S754_nan.
  apply (f_equal Prim2SF) in Hn. rewrite mul_spec, Hc in Hn.
  change (Prim2SF nan) with S754_nan in Hn.
  destruct (Prim2SF v) as [sv|sv| |sv mv ev]; try reflexivity;
    try discriminate.
  exfalso. revert Hn. unfold SF64mul, SFmul.
  apply binary_round_aux_not_nan. lia.
Qed.

Lemma convertUnit_to_MG_L_nan (v : float) (u : Unit) :
  convertUnit (num:=float) v u MG_L = nan <-> v = nan.
Proof.
  split.
  - destruct u; unfold convertUnit;
      cbn [Unit_eqb UNIT_INFO toMgL mul div float_JsNumber lit];
      change (float_lit 1) with 1%float;
      rewrite ?float_mul_one, ?float_div_one; try (intros E; exact E).
    + apply float_mul_finite_nan with (s := false) (m := 4611686018427388%positive) (e := (-62)%Z).
      reflexivity.
    + apply float_mul_finite_nan with (s := false) (m := 4611686018427388%positive) (e := (-62)%Z).
      reflexivity.
  - intros ->. destruct u; reflexivity.
Qed.

Lemma getBestDisplayUnit_float_PPM (v : float) (u : Unit) (m : Metal) :
  getBestDisplayUnit (num:=float) v u m = PPM <-> v = nan.
Proof.
  rewrite <- (convertUnit_to_MG_L_nan v u).
  unfold getBestDisplayUnit. cbv zeta.
  set (x := convertUnit v u MG_L).
  cbn [ltb geb lit float_JsNumber].
  split.
  - destruct (PrimFloat.ltb x (float_lit 0.001)) eqn:L.
    + destruct (PrimFloat.leb _ _); discriminate.
    + destruct (PrimFloat.leb (float_lit 0.001) x) eqn:G; [discriminate|].
      intros _. apply (@unordered_nan x (float_lit 0.001) L G). reflexivity.
  - intros ->. reflexivity.
Qed.

Lemma detect_nonpositive_float (samples : list (Sample float)) :
  (forall s m v, In s samples -> In (m, Some v) (concentrations s) ->
                 PrimFloat.ltb 0%float v = false) ->
  detectUnitForDataset samples = MG_L.
Proof.
  intros Hnp. apply detect_no_positive.
  intros s m v Hs Hm. exact (Hnp s m v Hs Hm).
Qed.

End Binary64.

(** ** Conversion *)

(** C9. Every factor of the registry is strictly positive, on rationals and
    on binary64 alike, so [convertUnit] never divides by zero: its result is
    the one number that, scaled by the target unit's factor, gives the value
    scaled by the source unit's factor. *)
Theorem toMgL_positive_convertUnit_total :
  (forall u, (0 < toMgL (UNIT_INFO (num:=Q) u))%Q) /\
  (forall u, PrimFloat.ltb 0%float (toMgL (UNIT_INFO (num:=float) u)) = true) /\
  (forall (v : Q) (u1 u2 : Unit),
      (convertUnit v u1 u2 * toMgL (UNIT_INFO u2) == v * toMgL (UNIT_INFO u1))%Q).
Proof.
  split; [exact toMgL_Q_pos|]. split.
  - intros u. destruct u; reflexivity.
  - exact convertUnit_Q_scaled.
Qed.

(** C4, as stated, fails on the numbers the program computes with: 1001 ppb
    converted to UG_L is 1001.0000000000001, because both the product by
    0.001 and the quotient by 0.001 are rounded. *)
Lemma convertUnit_PPB_UG_L_inexact :
  convertUnit (num:=float) 1001%float PPB UG_L = 1001.0000000000001%float /\
  PrimFloat.eqb (convertUnit (num:=float) 1001%float PPB UG_L) 1001%float = false /\
  convertUnit (num:=float) 1001%float PPB UG_L <> 1001%float.
Proof.
  split; [reflexivity|]. split; [reflexivity|].
  intros E.
  apply (f_equal (fun x => PrimFloat.eqb x 1001%float)) in E.
  vm_compute in E. discriminate.
Qed.

(** C4, as amended. [convertUnit v MG_L PPM] is [v] itself for every binary64
    value (NaN, zeros and infinities included) and for every rational.
    [convertUnit v PPB UG_L] is [v] in exact arithmetic; on binary64 it is the
    rounded quotient by 0.001 of the rounded product by 0.001. *)
Theorem convertUnit_same_family :
  (forall v : float, convertUnit v MG_L PPM = v) /\
  (forall v : Q, (convertUnit v MG_L PPM == v)%Q) /\
  (forall v : Q, (convertUnit v PPB UG_L == v)%Q) /\
  (forall v : float,
      convertUnit v PPB UG_L = PrimFloat.div (PrimFloat.mul v 0.001%float) 0.001%float).
Proof.
  split; [intros v; apply convertUnit_MG_L_PPM_float|].
  split; [intros v; apply convertUnit_Q_same_family|].
  split; [intros v; apply convertUnit_Q_same_family|].
  intros v. reflexivity.
Qed.

(** C5. Round trip: converting to another unit and back recovers the value,
    exactly on rationals; it holds for every value, positive or not. *)
Theorem convertUnit_round_trip (v : Q) (u1 u2 : Unit) :
  (convertUnit (convertUnit v u1 u2) u2 u1 == v)%Q.
Proof. destruct u1, u2; cbn; field. Qed.

(** On binary64 the round trip holds up to rounding only. *)
Example convertUnit_round_trip_float :
  convertUnit (convertUnit (num:=float) 1001%float PPB MG_L) MG_L PPB
  = 1001.0000000000001%float.
Proof. reflexivity. Qed.

(** ** Display unit *)

(** C1, as stated, fails: 0.00001 mg/L is displayed in UG_L, on rationals
    and on binary64 alike, so the UG_L branch is reachable and the result is
    not always MG_L or PPB. *)
Lemma getBestDisplayUnit_reaches_UG_L :
  getBestDisplayUnit (num:=Q) 0.00001%Q MG_L Pb = UG_L /\
  getBestDisplayUnit (num:=float) 0.00001%float MG_L Pb = UG_L /\
  ~ (forall (v : Q) (u : Unit) (m : Metal),
        getBestDisplayUnit v u m <> PPM /\ getBestDisplayUnit v u m <> UG_L /\
        (getBestDisplayUnit v u m = MG_L \/ getBestDisplayUnit v u m = PPB)).
Proof.
  split; [reflexivity|]. split; [reflexivity|].
  intros C. destruct (C 0.00001%Q MG_L Pb) as [_ [N _]]. apply N. reflexivity.
Qed.

(** C1, as amended. In exact arithmetic [getBestDisplayUnit] never returns
    PPM, but it does return UG_L: exactly when the value in mg/L is below
    0.0001 (its magnitude in ppb is below 0.1).  It returns PPB exactly from
    0.0001 up to, and not including, 0.001 mg/L, and MG_L from 0.001 mg/L on.
    On binary64 the PPM branch is taken by NaN and by nothing else. *)
Theorem getBestDisplayUnit_result :
  (forall (v : Q) (u : Unit) (m : Metal),
      let mgLValue := convertUnit v u MG_L in
      getBestDisplayUnit v u m <> PPM /\
      (getBestDisplayUnit v u m = UG_L <-> mgLValue < 0.0001) /\
      (getBestDisplayUnit v u m = PPB <-> 0.0001 <= mgLValue /\ mgLValue < 0.001) /\
      (getBestDisplayUnit v u m = MG_L <-> 0.001 <= mgLValue))%Q /\
  (forall (v : float) (u : Unit) (m : Metal),
      getBestDisplayUnit v u m = PPM <-> v = nan).
Proof.
  split.
  - exact getBestDisplayUnit_Q.
  - exact getBestDisplayUnit_float_PPM.
Qed.

(** The scenario of the specification, and the two ends of the scale. *)
Example getBestDisplayUnit_scenarios :
  getBestDisplayUnit (num:=float) 0.0005%float MG_L Pb = PPB /\
  getBestDisplayUnit (num:=Q) 0.0005%Q MG_L Pb = PPB /\
  getBestDisplayUnit (num:=float) 0%float MG_L Pb = UG_L /\
  getBestDisplayUnit (num:=float) 0.05%float PPB Pb = UG_L /\
  getBestDisplayUnit (num:=float) 2.5%float PPM Zn = MG_L /\
  getBestDisplayUnit (num:=float) nan MG_L Pb = PPM.
Proof. repeat split; reflexivity. Qed.

(** ** Detection *)

(** C6. With no sample at all, or when every concentration entry is absent
    or at most zero, [detectUnitForDataset] returns MG_L.  On binary64 this
    covers every entry that fails the test [value > 0], NaN included. *)
Theorem detect_default_MG_L :
  detectUnitForDataset (@nil (Sample Q)) = MG_L /\
  detectUnitForDataset (@nil (Sample float)) = MG_L /\
  (forall samples : list (Sample Q),
      (forall s m v, In s samples -> In (m, Some v) (concentrations s) ->
                     (v <= 0)%Q) ->
      detectUnitForDataset samples = MG_L) /\
  (forall samples : list (Sample float),
      (forall s m v, In s samples -> In (m, Some v) (concentrations s) ->
                     PrimFloat.ltb 0%float v = false) ->
      detectUnitForDataset samples = MG_L).
Proof.
  split; [reflexivity|]. split; [reflexivity|].
  split; [exact detect_nonpositive_Q | exact detect_nonpositive_float].
Qed.

(** A sample whose entries are zero, absent and negative. *)
Lemma detect_default_MG_L_witness :
  (forall s m v,
      In s [mkSample [(Pb, Some 0%Q); (As, None); (Hg, Some (-3 # 2)%Q)]] ->
      In (m, Some v) (concentrations s) -> (v <= 0)%Q) /\
  detectUnitForDataset
    [mkSample [(Pb, Some 0%Q); (As, None); (Hg, Some (-3 # 2)%Q)]] = MG_L.
Proof.
  assert (Hyp : forall s m v,
             In s [mkSample [(Pb, Some 0%Q); (As, None); (Hg, Some (-3 # 2)%Q)]] ->
             In (m, Some v) (concentrations s) -> (v <= 0)%Q).
  { intros s m v [<-|[]] Hm. simpl in Hm.
    destruct Hm as [E|[E|[E|[]]]]; inversion E; subst; lra. }
  split; [exact Hyp|].
  exact (proj1 (proj2 (proj2 detect_default_MG_L)) _ Hyp).
Defined.

(** C2. A dataset whose present readings all lie between 50 and 500, and
    which has at least one (such as Pb=80, Cr=150, Zn=300, the other metals
    absent): PPB and UG_L score strictly higher than MG_L and PPM, and the
    answer is PPB.  More precisely MG_L and PPM score zero while PPB and UG_L
    score one per reading.  How many readings a metal has plays no role.
    The example dataset gives the scores 0, 0, 3, 3 and PPB on binary64 too. *)
Theorem detect_50_500_is_PPB :
  (forall samples : list (Sample Q),
      (forall s m v, In s samples -> In (m, Some v) (concentrations s) ->
                     (50 <= v <= 500)%Q) ->
      (exists s m v, In s samples /\ In (m, Some v) (concentrations s)) ->
      let scores := unitScores (collectValues samples) in
      (scores MG_L < scores PPB)%nat /\ (scores PPM < scores PPB)%nat /\
      (scores MG_L < scores UG_L)%nat /\ (scores PPM < scores UG_L)%nat /\
      scores MG_L = 0%nat /\ scores PPM = 0%nat /\
      scores PPB = List.length (collectValues samples) /\
      scores UG_L = List.length (collectValues samples) /\
      detectUnitForDataset samples = PPB) /\
  (let samples := [mkSample [(Pb, Some 80%float); (Cr, Some 150%float);
                             (Zn, Some 300%float)]] in
   map (unitScores (collectValues samples)) AVAILABLE_UNITS = [0; 0; 3; 3]%nat /\
   detectUnitForDataset samples = PPB).
Proof.
  split.
  - exact detect_50_500_Q.
  - split; reflexivity.
Qed.

(** The dataset Pb=80, Cr=150, Zn=300 with the other entries absent. *)
Lemma detect_50_500_is_PPB_witness :
  let samples := [mkSample [(Pb, Some 80%Q); (Cr, Some 150%Q); (Zn, Some 300%Q);
                            (As, None); (Hg, None)]] in
  let scores := unitScores (collectValues samples) in
  (scores MG_L < scores PPB)%nat /\ (scores PPM < scores PPB)%nat /\
  (scores MG_L < scores UG_L)%nat /\ (scores PPM < scores UG_L)%nat /\
  scores MG_L = 0%nat /\ scores PPM = 0%nat /\
  scores PPB = 3%nat /\ scores UG_L = 3%nat /\
  detectUnitForDataset samples = PPB.
Proof.
  intros samples.
  apply (proj1 detect_50_500_is_PPB samples).
  - intros s m v [<-|[]] Hm. simpl in Hm.
    destruct Hm as [E|[E|[E|[E|[E|[]]]]]]; inversion E; subst; lra.
  - exists (mkSample [(Pb, Some 80%Q); (Cr, Some 150%Q); (Zn, Some 300%Q);
                      (As, None); (Hg, None)]), Pb, 80%Q.
    split; simpl; auto.
Defined.

(** The tie-break on a score table where PPM and UG_L share the maximum. *)
Lemma detect_tie_break_earliest_witness :
  let scores := fun u => match u with PPM | UG_L => 2%nat | _ => 1%nat end in
  scores UG_L = scores (selectBest scores) /\
  (unit_index (selectBest scores) <= unit_index UG_L)%nat /\
  selectBest scores = PPM.
Proof.
  intros scores.
  split; [reflexivity|]. split; [|reflexivity].
  apply (proj1 (detect_tie_break_earliest (num:=Q)) scores).
  reflexivity.
Defined.

(** ** The parser *)

Section ParserFacts.
Context `{JsString}.

Lemma lookup_In {A : Type} (key : string) (props : list (string * A)) (v : A) :
  lookup key props = Some v -> In (key, v) props.
Proof.
  induction props as [|[k w] props IH]; simpl; [discriminate|].
  destruct (String.eqb key k) eqn:E.
  - apply String.eqb_eq in E. intros [= ->]. left. now subst.
  - intros L. right. now apply IH.
Qed.

Lemma variants_In (key : string) (u : Unit) :
  In key (variants u) <-> In (key, u) unitMappings.
Proof.
  unfold variants. rewrite in_map_iff. split.
  - intros [[k u'] [E Hin]]. simpl in E; subst k.
    apply filter_In in Hin. destruct Hin as [Hin Hu]. simpl in Hu.
    destruct u', u; try discriminate; exact Hin.
  - intros Hin. exists (key, u). split; [reflexivity|].
    apply filter_In. split; [exact Hin|]. destruct u; reflexivity.
Qed.

(** No spelling is listed twice: a listed spelling is found, with its unit. *)
Lemma lookup_variant (key : string) (u : Unit) :
  In (key, u) unitMappings -> lookup key unitMappings = Some u.
Proof.
  unfold unitMappings. simpl.
  intros Hin.
  repeat (destruct Hin as [E|Hin]; [inversion E; subst; reflexivity|]).
  destruct Hin.
Qed.

Lemma lookup_unitMappings (key : string) (u : Unit) :
  lookup key unitMappings = Some u <-> In key (variants u).
Proof.
  rewrite variants_In. split; [apply lookup_In | apply lookup_variant].
Qed.

Lemma prototype_builtin (key : string) (v : JsValue) :
  lookup key Object_prototype = Some v -> exists what, v = VBuiltin what.
Proof.
  intros L. apply lookup_In in L. unfold Object_prototype in L. simpl in L.
  repeat (destruct L as [E|L]; [inversion E; subst; eexists; reflexivity|]).
  destruct L.
Qed.

Lemma truthy_unit (u : Unit) : truthy (VUnit u) = true.
Proof. destruct u; reflexivity. Qed.

(** What [parseUnit] returns, by the place its normalised argument is found
    at. *)
Lemma parseUnit_cases (unitStr : string) :
  let normalized := trim (toLowerCase unitStr) in
  match lookup normalized unitMappings with
  | Some u => parseUnit unitStr = VUnit u
  | None =>
      match lookup normalized Object_prototype with
      | Some v => parseUnit unitStr = v /\ exists what, v = VBuiltin what
      | None => parseUnit unitStr = VNull
      end
  end.
Proof.
  intros normalized. unfold parseUnit, getProperty. fold normalized.
  destruct (lookup normalized unitMappings) as [u|] eqn:L.
  - unfold or_null. now rewrite truthy_unit.
  - destruct (lookup normalized Object_prototype) as [v|] eqn:P; [|reflexivity].
    destruct (prototype_builtin _ P) as [what ->]. split; [reflexivity|].
    now exists what.
Qed.

(** A unit is returned exactly for its listed spellings. *)
Lemma parseUnit_unit_iff (unitStr : string) (u : Unit) :
  parseUnit unitStr = VUnit u <-> In (trim (toLowerCase unitStr)) (variants u).
Proof.
  rewrite <- lookup_unitMappings.
  pose proof (parseUnit_cases unitStr) as C. cbv zeta in C.
  destruct (lookup (trim (toLowerCase unitStr)) unitMappings) as [u'|].
  - rewrite C. split; congruence.
  - destruct (lookup (trim (toLowerCase unitStr)) Object_prototype) as [v|].
    + destruct C as [-> [what ->]]. split; discriminate.
    + rewrite C. split; discriminate.
Qed.

(** [null] is returned exactly when the normalised argument is neither a
    listed spelling nor the name of a property of [Object.prototype]. *)
Lemma parseUnit_null_iff (unitStr : string) :
  parseUnit unitStr = VNull <->
  lookup (trim (toLowerCase unitStr)) unitMappings = None /\
  lookup (trim (toLowerCase unitStr)) Object_prototype = None.
Proof.
  pose proof (parseUnit_cases unitStr) as C. cbv zeta in C.
  destruct (lookup (trim (toLowerCase unitStr)) unitMappings) as [u'|].
  - rewrite C. split; [discriminate | intros [? _]; discriminate].
  - destruct (lookup (trim (toLowerCase unitStr)) Object_prototype) as [v|].
    + destruct C as [-> [what ->]].
      split; [discriminate | intros [_ ?]; discriminate].
    + rewrite C. tauto.
Qed.

End ParserFacts.

(** Each unit's registry symbol and name parse back to it, with case and
    surrounding white space ignored, and an unrelated word is not
    recognised. *)
Lemma parseUnit_registry (u : Unit) :
  parseUnit (symbol (UNIT_INFO (num:=Q) u)) = VUnit u /\
  parseUnit (name (UNIT_INFO (num:=Q) u)) = VUnit u /\
  parseUnit (Unit_value u) = VUnit u.
Proof. destruct u; repeat split; reflexivity. Qed.

Lemma parseUnit_examples :
  parseUnit "banana" = VNull /\
  parseUnit "  MG/L " = VUnit MG_L /\
  parseUnit "Parts Per Billion" = VUnit PPB /\
  parseUnit "mg / l" = VNull.
Proof. repeat split; reflexivity. Qed.

(** C7 fails on the words that name a property of [Object.prototype]:
    "constructor" is no spelling variant of any unit, yet [parseUnit] does not
    return [null] for it but the function found through the prototype chain
    of the mapping object; likewise for "__proto__".  Neither result is a
    member of [Unit]. *)
Theorem parseUnit_constructor_not_null :
  (forall u, ~ In (trim (toLowerCase "constructor")) (variants u)) /\
  parseUnit "constructor" = VBuiltin "Object" /\
  parseUnit " Constructor " = VBuiltin "Object" /\
  parseUnit "__proto__" = VBuiltin "Object.prototype" /\
  parseUnit "constructor" <> VNull /\
  (forall u, parseUnit "constructor" <> VUnit u).
Proof.
  split.
  - intros u Hin. apply lookup_unitMappings in Hin. destruct u; discriminate.
  - repeat split; try reflexivity; try discriminate.
Qed.

(** * Further properties *)

Section ConversionExtras.
Local Open Scope Q_scope.

Lemma convertUnit_Q_factor (v : Q) (u1 u2 : Unit) :
  convertUnit v u1 u2
  == v * (if microUnit u1 then (if microUnit u2 then 1 else 1 # 1000)
          else (if microUnit u2 then 1000 else 1)).
Proof. destruct u1, u2; cbn; field. Qed.



Lemma convertUnit_order_helper (v w : Q) (u1 u2 : Unit) :
  v <= w <-> convertUnit v u1 u2 <= convertUnit w u1 u2.
Proof.
  rewrite !convertUnit_Q_factor.
  destruct (microUnit u1), (microUnit u2); split; intros; lra.
Qed.

End ConversionExtras.

Section DisplayExtras.
Local Open Scope Q_scope.

Lemma convertUnit_Q_PPB_of_MG_L (v : Q) (u : Unit) :
  convertUnit v u PPB == 1000 * convertUnit v u MG_L /\
  convertUnit v u UG_L == 1000 * convertUnit v u MG_L.
Proof. split; destruct u; cbn; field. Qed.

(** X14. The magnitude shown in the chosen unit: when PPB is chosen the value in
    ppb lies from 0.1 up to, and not including, 1; when MG_L is chosen the
    value in mg/L is at least 0.001; when UG_L is chosen the value in
    micrograms per litre is below 0.1. *)
Theorem getBestDisplayUnit_magnitude (v : Q) (u : Unit) (m : Metal) :
  match getBestDisplayUnit v u m with
  | PPB => 0.1 <= convertUnit v u PPB /\ convertUnit v u PPB < 1
  | UG_L => convertUnit v u UG_L < 0.1
  | MG_L => 0.001 <= convertUnit v u MG_L
  | PPM => False
  end.
Proof.
  destruct (convertUnit_Q_PPB_of_MG_L v u) as [P U].
  destruct (getBestDisplayUnit_cases v u m) as [[A E]|[[A [B E]]|[A E]]];
    rewrite E; cbv zeta in *; try split; lra.
Qed.

(** X15. Two readings of the same concentration, whatever units they are
    given in, get the same display unit. *)
Theorem getBestDisplayUnit_same_concentration
  (v v' : Q) (u u' : Unit) (m m' : Metal) :
  convertUnit v u MG_L == convertUnit v' u' MG_L ->
  getBestDisplayUnit v u m = getBestDisplayUnit v' u' m'.
Proof.
  intros E.
  destruct (getBestDisplayUnit_cases v u m) as [[A R]|[[A [B R]]|[A R]]];
    destruct (getBestDisplayUnit_cases v' u' m') as [[A' R']|[[A' [B' R']]|[A' R']]];
    rewrite R, R'; cbv zeta in *; try reflexivity; lra.
Qed.

Lemma getBestDisplayUnit_same_concentration_witness :
  convertUnit 0.5 PPB MG_L == convertUnit 0.0005 MG_L MG_L /\
  getBestDisplayUnit 0.5 PPB Pb = getBestDisplayUnit 0.0005 MG_L Zn.
Proof.
  assert (E : convertUnit 0.5 PPB MG_L == convertUnit 0.0005 MG_L MG_L)
    by reflexivity.
  split; [exact E|].
  exact (getBestDisplayUnit_same_concentration 0.5 0.0005 PPB MG_L Pb Zn E).
Defined.
End DisplayExtras.

Section DetectorExtras.
Context {num : Type} `{JsNumber num}.

Ltac decide_selection :=
  repeat match goal with
         | |- context [(?a <? ?b)%nat] =>
             lazymatch a with
             | context [if _ then _ else _] => fail
             | _ => destruct (Nat.ltb_spec a b); cbn [fst snd] in *
             end
         end.

Lemma selectBest_decision (scores : Unit -> nat) :
  scores MG_L = scores PPM -> scores PPB = scores UG_L ->
  selectBest scores = (if (scores MG_L <? scores PPB)%nat then PPB else MG_L).
Proof.
  intros E1 E2. unfold selectBest, AVAILABLE_UNITS, fold_left.
  destruct (Nat.ltb_spec (scores MG_L) (scores PPB));
    decide_selection; solve [reflexivity | lia].
Qed.

Lemma filter_length_perm {A : Type} (f : A -> bool) (l l' : list A) :
  Permutation l l' -> List.length (filter f l) = List.length (filter f l').
Proof.
  induction 1 as [|x l l' P IH|x y l|l l' l'' P1 IH1 P2 IH2]; simpl.
  - reflexivity.
  - destruct (f x); simpl; congruence.
  - destruct (f x), (f y); reflexivity.
  - congruence.
Qed.

(** X8. The score of a unit is the number of collected values that lie in
    the range of at least one metal for that unit; it is at most the number
    of collected values. *)
Theorem unitScores_counts_fitting (samples : list (Sample num)) (u : Unit) :
  unitScores (collectValues samples) u
  = List.length
      (filter (fun v => existsb (inRange v u) AVAILABLE_METALS)
         (collectValues samples)) /\
  (unitScores (collectValues samples) u <= List.length (collectValues samples))%nat.
Proof.
  rewrite unitScores_count.
  assert (E : filter (fun v => fitsInAnyRange v u) (collectValues samples)
              = filter (fun v => existsb (inRange v u) AVAILABLE_METALS)
                  (collectValues samples)).
  { apply filter_ext. intros v. apply fitsInAnyRange_existsb. }
  rewrite E. split; [reflexivity | apply filter_length_le].
Qed.

Lemma detect_by_scores (samples : list (Sample num)) :
  let scores := unitScores (collectValues samples) in
  (detectUnitForDataset samples = PPB <-> (scores MG_L < scores PPB)%nat) /\
  (detectUnitForDataset samples = MG_L <-> (scores PPB <= scores MG_L)%nat).
Proof.
  intros scores. rewrite detect_is_selectBest. fold scores.
  rewrite (selectBest_decision scores)
    by (apply unitScores_MG_L_PPM || apply unitScores_PPB_UG_L).
  destruct (Nat.ltb_spec (scores MG_L) (scores PPB)); split; split;
    intros; try discriminate; try reflexivity; lia.
Qed.

(** X9. The answer is decided by two scores only: PPB when the PPB score
    exceeds the MG_L score, MG_L otherwise. *)
Theorem detect_decision (samples : list (Sample num)) :
  let scores := unitScores (collectValues samples) in
  (detectUnitForDataset samples = PPB <-> (scores MG_L < scores PPB)%nat) /\
  (detectUnitForDataset samples = MG_L <-> (scores PPB <= scores MG_L)%nat).
Proof. exact (detect_by_scores samples). Qed.

Lemma collectValues_perm (samples samples' : list (Sample num)) :
  Permutation samples samples' ->
  Permutation (collectValues samples) (collectValues samples').
Proof.
  intros P. rewrite !collectValues_flat_map. now apply Permutation_flat_map.
Qed.

Lemma detect_perm_values (samples samples' : list (Sample num)) :
  Permutation (collectValues samples) (collectValues samples') ->
  detectUnitForDataset samples = detectUnitForDataset samples'.
Proof.
  intros P. rewrite !detect_is_selectBest.
  assert (S : forall u, unitScores (collectValues samples) u
                        = unitScores (collectValues samples') u).
  { intros u. rewrite !unitScores_count. now apply filter_length_perm. }
  unfold selectBest, AVAILABLE_UNITS, fold_left. now rewrite !S.
Qed.

(** X10. The order of the samples plays no role in the detection. *)
Theorem detect_order_independent (samples samples' : list (Sample num)) :
  Permutation samples samples' ->
  detectUnitForDataset samples = detectUnitForDataset samples'.
Proof. intros P. apply detect_perm_values. now apply collectValues_perm. Qed.

(** X7. The values collected from two batches put together are those of the
    first followed by those of the second; a value is collected exactly when
    it is present in some sample and strictly positive. *)
Theorem collectValues_app (samples samples' : list (Sample num)) :
  collectValues (samples ++ samples') = collectValues samples ++ collectValues samples' /\
  (forall v, In v (collectValues samples) <->
             (exists s m, In s samples /\ In (m, Some v) (concentrations s)) /\
             (v >? lit 0)%js = true).
Proof.
  split.
  - rewrite !collectValues_flat_map. apply flat_map_app.
  - intros v. apply In_collectValues.
Qed.

End DetectorExtras.

Section DetectorExact.
Local Open Scope Q_scope.

Ltac q_bool :=
  repeat match goal with
         | H : Qlt_bool _ _ = true |- _ => apply Qlt_bool_iff in H
         | H : Qlt_bool _ _ = false |- _ => apply Qlt_bool_false in H
         | H : Qle_bool _ _ = true |- _ => apply Qle_bool_iff in H
         | H : Qle_bool _ _ = false |- _ => apply Qle_bool_false in H
         | H : (_ && _)%bool = true |- _ => apply andb_true_iff in H; destruct H
         end.

Lemma inRange_Q (v : Q) (u : Unit) (m : Metal) :
  inRange v u m = true <->
  min (TYPICAL_RANGES m u) <= v /\ v <= max (TYPICAL_RANGES m u).
Proof.
  unfold inRange. cbn [geb leb Q_JsNumber].
  rewrite andb_true_iff, !Qle_bool_iff. reflexivity.
Qed.

Lemma fits_exists_Q (v : Q) (u : Unit) :
  fitsInAnyRange v u = true <->
  exists m, min (TYPICAL_RANGES m u) <= v /\ v <= max (TYPICAL_RANGES m u).
Proof.
  rewrite fitsInAnyRange_existsb, existsb_exists. split.
  - intros [m [_ R]]. exists m. now apply inRange_Q.
  - intros [m R]. exists m. split; [destruct m; simpl; tauto | now apply inRange_Q].
Qed.

Lemma fits_MG_L_Q (v : Q) :
  fitsInAnyRange v MG_L = true <-> 0.00001 <= v /\ v <= 10.
Proof.
  rewrite fits_exists_Q. split.
  - intros [m R]. destruct m; cbn in R; lra.
  - intros [Lo Hi].
    destruct (Qlt_le_dec v 0.01); [exists Hg; cbn; lra|].
    exists Zn; cbn; lra.
Qed.

Lemma fits_PPB_Q (v : Q) :
  fitsInAnyRange v PPB = true <-> 0.01 <= v /\ v <= 10000.
Proof.
  rewrite fits_exists_Q. split.
  - intros [m R]. destruct m; cbn in R; lra.
  - intros [Lo Hi].
    destruct (Qlt_le_dec v 10); [exists Hg; cbn; lra|].
    exists Zn; cbn; lra.
Qed.

(** X11. The ranges of the eight metals leave no gap: a value fits the mg/L
    family exactly from 0.00001 to 10 and the ppb family exactly from 0.01 to
    10000. *)
Theorem fitsInAnyRange_intervals (v : Q) :
  (fitsInAnyRange v MG_L = true <-> 0.00001 <= v /\ v <= 10) /\
  (fitsInAnyRange v PPM = true <-> 0.00001 <= v /\ v <= 10) /\
  (fitsInAnyRange v PPB = true <-> 0.01 <= v /\ v <= 10000) /\
  (fitsInAnyRange v UG_L = true <-> 0.01 <= v /\ v <= 10000).
Proof.
  rewrite <- fits_MG_L_PPM, <- fits_PPB_UG_L.
  split; [apply fits_MG_L_Q|]. split; [apply fits_MG_L_Q|].
  split; apply fits_PPB_Q.
Qed.

Lemma fits_MG_L_bool (v : Q) :
  fitsInAnyRange v MG_L = Qle_bool 0.00001 v && Qle_bool v 10.
Proof.
  apply eq_iff_eq_true.
  rewrite fits_MG_L_Q, andb_true_iff, !Qle_bool_iff. reflexivity.
Qed.

Lemma fits_PPB_bool (v : Q) :
  fitsInAnyRange v PPB = Qle_bool 0.01 v && Qle_bool v 10000.
Proof.
  apply eq_iff_eq_true.
  rewrite fits_PPB_Q, andb_true_iff, !Qle_bool_iff. reflexivity.
Qed.

(** Per value, what the ppb family gains over the mg/L family. *)
Lemma fits_balance (v : Q) :
  ((if fitsInAnyRange v PPB then 1 else 0) + (if belowOverlap v then 1 else 0)
   = (if fitsInAnyRange v MG_L then 1 else 0) + (if aboveOverlap v then 1 else 0))%nat.
Proof.
  rewrite fits_MG_L_bool, fits_PPB_bool. unfold belowOverlap, aboveOverlap.
  destruct (Qle_bool 0.00001 v) eqn:A, (Qle_bool v 10) eqn:B,
           (Qle_bool 0.01 v) eqn:C, (Qle_bool v 10000) eqn:D,
           (Qlt_bool v 0.01) eqn:E, (Qlt_bool 10 v) eqn:F;
    simpl; try reflexivity; exfalso; q_bool; lra.
Qed.

Lemma scores_balance (values : list Q) :
  (unitScores values PPB + List.length (filter belowOverlap values)
   = unitScores values MG_L + List.length (filter aboveOverlap values))%nat.
Proof.
  rewrite !unitScores_count.
  induction values as [|v values IH]; [reflexivity|].
  pose proof (fits_balance v) as Bal. simpl.
  destruct (fitsInAnyRange v PPB), (fitsInAnyRange v MG_L),
           (belowOverlap v), (aboveOverlap v); simpl in *; lia.
Qed.

Lemma detect_by_counts_Q (samples : list (Sample Q)) :
  let values := collectValues samples in
  (detectUnitForDataset samples = PPB <->
   (List.length (filter belowOverlap values)
    < List.length (filter aboveOverlap values))%nat) /\
  (detectUnitForDataset samples = MG_L <->
   (List.length (filter aboveOverlap values)
    <= List.length (filter belowOverlap values))%nat).
Proof.
  intros values.
  pose proof (scores_balance values) as Bal.
  destruct (detect_by_scores samples) as [P M]. fold values in P, M.
  rewrite P, M. split; lia.
Qed.

(** X12. Detection by magnitudes: the answer is PPB exactly when the readings
    above 10 and up to 10000 outnumber the readings from 0.00001 up to, and
    not including, 0.01; readings from 0.01 to 10 and readings outside
    0.00001 to 10000 have no influence. *)
Theorem detect_by_magnitudes (samples : list (Sample Q)) :
  let values := collectValues samples in
  (detectUnitForDataset samples = PPB <->
   (List.length (filter belowOverlap values)
    < List.length (filter aboveOverlap values))%nat) /\
  (detectUnitForDataset samples = MG_L <->
   (List.length (filter aboveOverlap values)
    <= List.length (filter belowOverlap values))%nat).
Proof. exact (detect_by_counts_Q samples). Qed.

Lemma In_collectValues_Q (samples : list (Sample Q)) (v : Q) :
  In v (collectValues samples) <->
  (exists s m, In s samples /\ In (m, Some v) (concentrations s)) /\ 0 < v.
Proof.
  rewrite In_collectValues. cbn [gtb lit Q_JsNumber].
  now rewrite Qlt_bool_iff.
Qed.

Lemma filter_none {A : Type} (f : A -> bool) (l : list A) :
  (forall x, In x l -> f x = false) -> filter f l = [].
Proof.
  induction l as [|x l IH]; intros Hf; [reflexivity|]. simpl.
  rewrite (Hf x (or_introl eq_refl)). apply IH. intros y Hy. apply Hf. now right.
Qed.

(** X13. A dataset whose positive readings all lie from 0.01 to 10 fits both
    families alike and is taken for MG_L. *)
Theorem detect_overlap_is_MG_L (samples : list (Sample Q)) :
  (forall s m v, In s samples -> In (m, Some v) (concentrations s) ->
                 0 < v -> 0.01 <= v /\ v <= 10) ->
  detectUnitForDataset samples = MG_L.
Proof.
  intros Hov.
  apply (proj2 (detect_by_counts_Q samples)).
  assert (Z : filter aboveOverlap (collectValues samples) = []).
  { apply filter_none. intros v Hv.
    apply In_collectValues_Q in Hv. destruct Hv as [[s [m [Hs Hm]]] Hp].
    pose proof (Hov s m v Hs Hm Hp).
    unfold aboveOverlap. destruct (Qlt_bool 10 v) eqn:E; [|reflexivity].
    q_bool. lra. }
  rewrite Z. simpl. lia.
Qed.

Lemma detect_overlap_is_MG_L_witness :
  let samples := [mkSample [(Pb, Some 5); (Cd, Some 0.02); (Zn, Some (-4)); (Fe, None)];
                  mkSample [(Cr, Some 10)]] in
  (forall s m v, In s samples -> In (m, Some v) (concentrations s) ->
                 0 < v -> 0.01 <= v /\ v <= 10) /\
  detectUnitForDataset samples = MG_L.
Proof.
  intros samples.
  assert (Hyp : forall s m v, In s samples -> In (m, Some v) (concentrations s) ->
                              0 < v -> 0.01 <= v /\ v <= 10).
  { intros s m v [<-|[<-|[]]] Hm Hp; simpl in Hm;
      repeat (destruct Hm as [E|Hm]; [inversion E; subst; lra|]); destruct Hm. }
  split; [exact Hyp|].
  exact (@detect_overlap_is_MG_L samples Hyp).
Defined.
End DetectorExact.

Section RangeTable.
Local Open Scope Q_scope.

(** X5. Every entry of the range table has a strictly positive lower bound
    that is strictly below its upper bound, on rationals and on binary64. *)
Theorem TYPICAL_RANGES_well_formed (m : Metal) (u : Unit) :
  0 < min (TYPICAL_RANGES (num:=Q) m u) /\
  min (TYPICAL_RANGES (num:=Q) m u) < max (TYPICAL_RANGES (num:=Q) m u) /\
  PrimFloat.ltb 0%float (min (TYPICAL_RANGES (num:=float) m u)) = true /\
  PrimFloat.ltb (min (TYPICAL_RANGES (num:=float) m u))
                (max (TYPICAL_RANGES (num:=float) m u)) = true.
Proof.
  destruct m, u; (split; [cbn; lra|]); (split; [cbn; lra|]); split; reflexivity.
Qed.

Lemma ranges_convert (m : Metal) (u u' : Unit) :
  convertUnit (min (TYPICAL_RANGES m u)) u u' == min (TYPICAL_RANGES m u') /\
  convertUnit (max (TYPICAL_RANGES m u)) u u' == max (TYPICAL_RANGES m u').
Proof. destruct m, u, u'; split; cbn; field. Qed.

Lemma inRange_convert (v : Q) (m : Metal) (u u' : Unit) :
  inRange (convertUnit v u u') u' m = inRange v u m.
Proof.
  apply eq_iff_eq_true. rewrite !inRange_Q.
  destruct (ranges_convert m u u') as [Emin Emax].
  rewrite <- Emin, <- Emax.
  pose proof (convertUnit_order_helper (min (TYPICAL_RANGES m u)) v u u').
  pose proof (convertUnit_order_helper v (max (TYPICAL_RANGES m u)) u u').
  tauto.
Qed.
End RangeTable.

Section RangeConversion.
Local Open Scope Q_scope.
(** X6. The range table agrees with the registry: a value lies in the range
    of a metal for a unit exactly when its conversion to another unit lies in
    the range of that metal for the other unit, so conversion does not
    change what fits. *)
Theorem fitsInAnyRange_convert (v : Q) (u u' : Unit) :
  (forall m, inRange (convertUnit v u u') u' m = inRange v u m) /\
  fitsInAnyRange (convertUnit v u u') u' = fitsInAnyRange v u.
Proof.
  split; [intros m; apply inRange_convert|].
  rewrite !fitsInAnyRange_existsb.
  unfold AVAILABLE_METALS, existsb. now rewrite !inRange_convert.
Qed.

Lemma filter_map_length {A B : Type} (f : B -> bool) (g : A -> B) (l : list A) :
  List.length (filter f (map g l)) = List.length (filter (fun x => f (g x)) l).
Proof.
  induction l as [|x l IH]; [reflexivity|]. simpl.
  destruct (f (g x)); simpl; congruence.
Qed.

(** X24. Re-expressing every value of a dataset in another unit moves the
    score with it: the score of the new unit on the converted values is the
    score of the old unit on the original values. *)
Theorem unitScores_convert (values : list Q) (u u' : Unit) :
  unitScores (map (fun v => convertUnit v u u') values) u' = unitScores values u.
Proof.
  rewrite !unitScores_count, filter_map_length. f_equal.
  apply filter_ext. intros v.
  rewrite !fitsInAnyRange_existsb.
  unfold AVAILABLE_METALS, existsb. now rewrite !inRange_convert.
Qed.
End RangeConversion.

Section DetectorWitnesses.
Local Open Scope Q_scope.
Lemma detect_order_independent_witness :
  let a := mkSample [(Pb, Some 80); (Zn, Some 0.002)] in
  let b := mkSample [(Cr, Some 150); (Hg, None)] in
  Permutation [a; b] [b; a] /\
  detectUnitForDataset [a; b] = detectUnitForDataset [b; a].
Proof.
  intros a b.
  assert (P : Permutation [a; b] [b; a]) by apply perm_swap.
  split; [exact P|].
  exact (@detect_order_independent Q _ [a; b] [b; a] P).
Defined.
End DetectorWitnesses.

Section ConvertToMgL.

Lemma convertToMgL_float_product (v : float) (u : Unit) :
  convertToMgL (mkConcentration v u) = PrimFloat.mul v (toMgL (UNIT_INFO u)).
Proof.
  unfold convertToMgL, convertUnit.
  cbn [value unit Unit_eqb UNIT_INFO toMgL mul div float_JsNumber lit].
  destruct u; cbn [Unit_eqb UNIT_INFO toMgL];
    change (float_lit 1) with 1%float;
    rewrite ?float_div_one, ?float_mul_one; reflexivity.
Qed.

(** X4. [convertToMgL] multiplies by the factor of the unit: exactly on
    rationals, and by one rounded product on binary64 (the division by 1
    loses nothing); values in MG_L or PPM are returned as they are, and the
    result is NaN for NaN only. *)
Theorem convertToMgL_factor (u : Unit) :
  (forall v : Q,
      (convertToMgL (mkConcentration v u) == v * toMgL (UNIT_INFO u))%Q) /\
  (forall v : float,
      convertToMgL (mkConcentration v u) = PrimFloat.mul v (toMgL (UNIT_INFO u))) /\
  (forall v : float, microUnit u = false -> convertToMgL (mkConcentration v u) = v) /\
  (forall v : float, convertToMgL (mkConcentration v u) = nan <-> v = nan).
Proof.
  split; [intros v; destruct u; cbn; field|].
  split; [intros v; apply convertToMgL_float_product|].
  split.
  - intros v Hu. rewrite convertToMgL_float_product.
    destruct u; try discriminate; cbn [UNIT_INFO toMgL lit float_JsNumber];
      change (float_lit 1) with 1%float; apply float_mul_one.
  - intros v. apply convertUnit_to_MG_L_nan.
Qed.
End ConvertToMgL.

Section ParserExtras.
Context `{JsString}.

Lemma lookup_None_iff {A : Type} (key : string) (props : list (string * A)) :
  lookup key props = None <-> ~ In key (map fst props).
Proof.
  induction props as [|[k v] props IH]; simpl; [tauto|].
  destruct (String.eqb key k) eqn:E.
  - apply String.eqb_eq in E. subst. split; [discriminate | tauto].
  - apply String.eqb_neq in E. rewrite IH. split; [intros N [K|K]; [congruence|tauto] | tauto].
Qed.

(** X16. For every normalisation of the argument, a unit is returned exactly
    for the spellings the table lists for it. *)
Theorem parseUnit_spellings (unitStr : string) :
  let normalized := trim (toLowerCase unitStr) in
  (parseUnit unitStr = VUnit MG_L <->
   In normalized ["mg/l"; "mgl"; "mg per l"; "mg per liter"; "milligrams per liter"]) /\
  (parseUnit unitStr = VUnit PPM <-> In normalized ["ppm"; "parts per million"]) /\
  (parseUnit unitStr = VUnit PPB <-> In normalized ["ppb"; "parts per billion"]) /\
  (parseUnit unitStr = VUnit UG_L <->
   In normalized ["μg/l"; "ug/l"; "ugl"; "micrograms per liter"; "μg per l"; "ug per l"]).
Proof.
  intros normalized. subst normalized.
  split; [exact (parseUnit_unit_iff unitStr MG_L)|].
  split; [exact (parseUnit_unit_iff unitStr PPM)|].
  split; [exact (parseUnit_unit_iff unitStr PPB)|].
  exact (parseUnit_unit_iff unitStr UG_L).
Qed.

(** X17. [parseUnit] returns [null] exactly when the normalised argument is
    neither a key of the table nor the name of a property of
    [Object.prototype]; it never returns [undefined], and for such a name it
    returns the inherited built-in. *)
Theorem parseUnit_not_recognized (unitStr : string) :
  let normalized := trim (toLowerCase unitStr) in
  (parseUnit unitStr = VNull <->
   ~ In normalized (map fst unitMappings) /\
   ~ In normalized (map fst Object_prototype)) /\
  parseUnit unitStr <> VUndefined /\
  (In normalized (map fst Object_prototype) ->
   exists what, parseUnit unitStr = VBuiltin what).
Proof.
  intros normalized. subst normalized.
  split; [|split].
  - rewrite parseUnit_null_iff, !lookup_None_iff. reflexivity.
  - pose proof (parseUnit_cases unitStr) as C. cbv zeta in C.
    destruct (lookup (trim (toLowerCase unitStr)) unitMappings).
    + rewrite C. discriminate.
    + destruct (lookup (trim (toLowerCase unitStr)) Object_prototype).
      * destruct C as [-> [what ->]]. discriminate.
      * rewrite C. discriminate.
  - intros Hin.
    pose proof (parseUnit_cases unitStr) as C. cbv zeta in C.
    destruct (lookup (trim (toLowerCase unitStr)) unitMappings) eqn:L.
    + exfalso. apply lookup_In in L.
      unfold Object_prototype in Hin. simpl in Hin. unfold unitMappings in L. simpl in L.
      repeat (destruct Hin as [E|Hin];
              [rewrite <- E in L;
               repeat (destruct L as [L|L]; [discriminate L|]); exact L|]).
      exact Hin.
    + destruct (lookup (trim (toLowerCase unitStr)) Object_prototype) eqn:P.
      * destruct C as [-> [what ->]]. now exists what.
      * apply lookup_None_iff in P. contradiction.
Qed.
End ParserExtras.

Section ParserAscii.

Lemma lower_ascii_idem (c : ascii) : lower_ascii (lower_ascii c) = lower_ascii c.
Proof. destruct c as [[] [] [] [] [] [] [] []]; reflexivity. Qed.

Lemma lower_ascii_space (c : ascii) : is_space c = true -> lower_ascii c = c.
Proof. destruct c as [[] [] [] [] [] [] [] []]; intros E; try reflexivity; discriminate E. Qed.

Lemma lower_string_idem (s : string) : lower_string (lower_string s) = lower_string s.
Proof. induction s as [|c s IH]; simpl; [reflexivity|]. now rewrite lower_ascii_idem, IH. Qed.

Lemma lower_string_app (a b : string) :
  lower_string (a ++ b) = (lower_string a ++ lower_string b)%string.
Proof. induction a as [|c a IH]; simpl; [reflexivity|]. now rewrite IH. Qed.

Lemma lower_string_space (ws : string) : all_space ws = true -> lower_string ws = ws.
Proof.
  induction ws as [|c ws IH]; simpl; [reflexivity|].
  intros E. apply andb_true_iff in E. destruct E as [Ec Ews].
  now rewrite lower_ascii_space, IH.
Qed.

Lemma trim_start_pad (ws s : string) :
  all_space ws = true -> trim_start (ws ++ s) = trim_start s.
Proof.
  induction ws as [|c ws IH]; simpl; [reflexivity|].
  intros E. apply andb_true_iff in E. destruct E as [Ec Ews].
  rewrite Ec. now apply IH.
Qed.

Lemma trim_start_space (ws : string) : all_space ws = true -> trim_start ws = "".
Proof.
  induction ws as [|c ws IH]; simpl; [reflexivity|].
  intros E. apply andb_true_iff in E. destruct E as [Ec Ews].
  rewrite Ec. now apply IH.
Qed.

Lemma trim_end_space (ws : string) : all_space ws = true -> trim_end ws = "".
Proof.
  induction ws as [|c ws IH]; simpl; [reflexivity|].
  intros E. apply andb_true_iff in E. destruct E as [Ec Ews].
  now rewrite IH, Ec.
Qed.

Lemma trim_end_pad (s ws : string) :
  all_space ws = true -> trim_end (s ++ ws) = trim_end s.
Proof.
  intros E. induction s as [|c s IH]; simpl.
  - now apply trim_end_space.
  - now rewrite IH.
Qed.

Lemma trim_pad_right (s ws : string) :
  all_space ws = true ->
  trim_end (trim_start (s ++ ws)) = trim_end (trim_start s).
Proof.
  intros E. induction s as [|c s IH].
  - simpl. now rewrite (trim_start_space ws E).
  - simpl. destruct (is_space c); [exact IH|].
    change (String c (s ++ ws)) with (String c s ++ ws)%string.
    now apply trim_end_pad.
Qed.

Lemma normalize_pad (ws s ws' : string) :
  all_space ws = true -> all_space ws' = true ->
  trim (toLowerCase (ws ++ s ++ ws')) = trim (toLowerCase s).
Proof.
  intros E E'. cbn [trim toLowerCase Utf8_JsString].
  rewrite !lower_string_app, (lower_string_space ws E), (lower_string_space ws' E').
  rewrite (trim_start_pad ws _ E). now apply trim_pad_right.
Qed.

(** X18. On ASCII text, white space around the argument and lower-casing the
    argument do not change the result. *)
Theorem parseUnit_padding_and_case (ws s ws' : string) :
  all_space ws = true -> all_space ws' = true ->
  parseUnit (ws ++ s ++ ws') = parseUnit s /\
  parseUnit (lower_string s) = parseUnit s.
Proof.
  intros E E'. unfold parseUnit. split.
  - now rewrite normalize_pad.
  - cbn [trim toLowerCase Utf8_JsString]. now rewrite lower_string_idem.
Qed.

(** X19. The symbol, the name and the enum string of every unit of the
    registry parse back to that unit, also when padded with white space. *)
Theorem parseUnit_registry_round_trip (u : Unit) (ws ws' : string) :
  all_space ws = true -> all_space ws' = true ->
  parseUnit (ws ++ symbol (UNIT_INFO (num:=Q) u) ++ ws') = VUnit u /\
  parseUnit (ws ++ name (UNIT_INFO (num:=Q) u) ++ ws') = VUnit u /\
  parseUnit (ws ++ Unit_value u ++ ws') = VUnit u.
Proof.
  intros E E'. unfold parseUnit. rewrite !normalize_pad by assumption.
  destruct u; repeat split; reflexivity.
Qed.
End ParserAscii.

Section AssocFacts.
Context {A : Type}.

Lemma Metal_eqb_eq (a b : Metal) : Metal_eqb a b = true <-> a = b.
Proof. destruct a, b; simpl; split; intros E; try reflexivity; discriminate E. Qed.

Lemma Metal_eqb_refl (a : Metal) : Metal_eqb a a = true.
Proof. now apply Metal_eqb_eq. Qed.

Lemma getMetal_assign (m k : Metal) (v : A) (props : list (Metal * A)) :
  getMetal m (assign k v props) = if Metal_eqb k m then Some v else getMetal m props.
Proof.
  induction props as [|[k0 w] props IH]; simpl.
  - reflexivity.
  - destruct (Metal_eqb k0 k) eqn:E; simpl.
    + apply Metal_eqb_eq in E. subst k0. destruct (Metal_eqb k m); reflexivity.
    + rewrite IH. destruct (Metal_eqb k0 m) eqn:E0; [|reflexivity].
      apply Metal_eqb_eq in E0. subst k0.
      destruct (Metal_eqb k m) eqn:E1; [|reflexivity].
      apply Metal_eqb_eq in E1. subst k. rewrite Metal_eqb_refl in E. discriminate.
Qed.

Lemma In_keys_assign (x k : Metal) (v : A) (props : list (Metal * A)) :
  In x (map fst (assign k v props)) <-> x = k \/ In x (map fst props).
Proof.
  induction props as [|[k0 w] props IH]; simpl.
  - intuition.
  - destruct (Metal_eqb k0 k) eqn:E; simpl.
    + apply Metal_eqb_eq in E. subst k0. intuition.
    + rewrite IH. intuition.
Qed.

Lemma NoDup_keys_assign (k : Metal) (v : A) (props : list (Metal * A)) :
  NoDup (map fst props) -> NoDup (map fst (assign k v props)).
Proof.
  induction props as [|[k0 w] props IH]; simpl; intros N.
  - constructor; [intros [] | constructor].
  - inversion N as [|? ? Hn N']; subst.
    destruct (Metal_eqb k0 k) eqn:E; simpl.
    + now constructor.
    + constructor; [|now apply IH].
      rewrite In_keys_assign. intros [->|Hin]; [|contradiction].
      rewrite Metal_eqb_refl in E. discriminate.
Qed.

Lemma getMetal_In (m : Metal) (props : list (Metal * A)) (v : A) :
  NoDup (map fst props) -> (getMetal m props = Some v <-> In (m, v) props).
Proof.
  induction props as [|[k0 w] props IH]; simpl; intros N.
  - split; [discriminate | tauto].
  - inversion N as [|? ? Hn N']; subst.
    destruct (Metal_eqb k0 m) eqn:E.
    + apply Metal_eqb_eq in E. subst k0. split.
      * intros [= ->]. now left.
      * intros [[= ->]|Hin]; [reflexivity|].
        exfalso. apply Hn. apply in_map_iff. now exists (m, v).
    + rewrite (IH N'). split; [tauto|].
      intros [[= -> ->]|Hin]; [|exact Hin].
      rewrite Metal_eqb_refl in E. discriminate.
Qed.
End AssocFacts.

Section FormFacts.
Context {num : Type} `{JsNumber num} `{JsNaN num} `{JsParseFloat num} `{JsString}.
Variable metals : list Metal.
Variable concentrations : Metal -> string.
Variable selectedUnit : Unit.
Local Open Scope js_scope.

Let val (m : Metal) : num := parseFloat (concentrations m).
Let stored (m : Metal) : num := convertToMgL (mkConcentration (val m) selectedUnit).
Let original (m : Metal) : SampleInputForm.ConcentrationValue num :=
  SampleInputForm.mkConcentrationValue (val m) selectedUnit (stored m).
Let step (state : list (Metal * option num)
                  * list (Metal * option (SampleInputForm.ConcentrationValue num)) * bool)
         (metal : Metal) :=
  let '(n, o, h) := state in
  if negb (isNaN (val metal)) && (val metal >? lit 0) then
    (assign metal (Some (stored metal)) n, assign metal (Some (original metal)) o, true)
  else state.

Lemma readConcentrations_fold :
  SampleInputForm.readConcentrations metals concentrations selectedUnit
  = fold_left step metals ([], [], false).
Proof. reflexivity. Qed.

Lemma fold_step_spec (ms : list Metal) n0 o0 h0 :
  let '(n, o, h) := fold_left step ms (n0, o0, h0) in
  (forall m, getMetal m n =
             if existsb (Metal_eqb m) ms && SampleInputForm.accepted (val m)
             then Some (Some (stored m)) else getMetal m n0) /\
  (forall m, getMetal m o =
             if existsb (Metal_eqb m) ms && SampleInputForm.accepted (val m)
             then Some (Some (original m)) else getMetal m o0) /\
  h = h0 || existsb (fun m => SampleInputForm.accepted (val m)) ms /\
  (NoDup (map fst n0) -> NoDup (map fst n)) /\
  (NoDup (map fst o0) -> NoDup (map fst o)).
Proof.
  revert n0 o0 h0. induction ms as [|k ms IH]; intros n0 o0 h0.
  - simpl. repeat split; auto. now rewrite orb_false_r.
  - cbn [fold_left]. unfold step at 2. fold (SampleInputForm.accepted (val k)).
    destruct (SampleInputForm.accepted (val k)) eqn:Ak.
    + specialize (IH (assign k (Some (stored k)) n0)
                     (assign k (Some (original k)) o0) true).
      destruct (fold_left step ms _) as [[n o] h].
      destruct IH as [Hn [Ho [Hh [Nn No]]]].
      split; [|split; [|split; [|split]]].
      * intros m. rewrite Hn, getMetal_assign. cbn [existsb].
        destruct (Metal_eqb m k) eqn:E.
        -- apply Metal_eqb_eq in E. subst m. rewrite Ak, Metal_eqb_refl. simpl.
           destruct (existsb (Metal_eqb k) ms); reflexivity.
        -- simpl. destruct (existsb (Metal_eqb m) ms && SampleInputForm.accepted (val m)); [reflexivity|].
           destruct (Metal_eqb k m) eqn:E'; [|reflexivity].
           apply Metal_eqb_eq in E'. subst. rewrite Metal_eqb_refl in E. discriminate.
      * intros m. rewrite Ho, getMetal_assign. cbn [existsb].
        destruct (Metal_eqb m k) eqn:E.
        -- apply Metal_eqb_eq in E. subst m. rewrite Ak, Metal_eqb_refl. simpl.
           destruct (existsb (Metal_eqb k) ms); reflexivity.
        -- simpl. destruct (existsb (Metal_eqb m) ms && SampleInputForm.accepted (val m)); [reflexivity|].
           destruct (Metal_eqb k m) eqn:E'; [|reflexivity].
           apply Metal_eqb_eq in E'. subst. rewrite Metal_eqb_refl in E. discriminate.
      * rewrite Hh. cbn [existsb]. rewrite Ak. simpl. now rewrite orb_true_r.
      * intros N. apply Nn. now apply NoDup_keys_assign.
      * intros N. apply No. now apply NoDup_keys_assign.
    + specialize (IH n0 o0 h0).
      destruct (fold_left step ms _) as [[n o] h].
      destruct IH as [Hn [Ho [Hh [Nn No]]]].
      split; [|split; [|split; [|split]]]; auto.
      * intros m. rewrite Hn. cbn [existsb].
        destruct (Metal_eqb m k) eqn:E; [|reflexivity].
        apply Metal_eqb_eq in E. subst m. rewrite Ak, !andb_false_r. reflexivity.
      * intros m. rewrite Ho. cbn [existsb].
        destruct (Metal_eqb m k) eqn:E; [|reflexivity].
        apply Metal_eqb_eq in E. subst m. rewrite Ak, !andb_false_r. reflexivity.
      * rewrite Hh. cbn [existsb]. rewrite Ak. reflexivity.
Qed.

Lemma readConcentrations_spec :
  let '(n, o, h) := SampleInputForm.readConcentrations metals concentrations selectedUnit in
  (forall m, getMetal m n =
             if existsb (Metal_eqb m) metals && SampleInputForm.accepted (val m)
             then Some (Some (stored m)) else None) /\
  (forall m, getMetal m o =
             if existsb (Metal_eqb m) metals && SampleInputForm.accepted (val m)
             then Some (Some (original m)) else None) /\
  h = existsb (fun m => SampleInputForm.accepted (val m)) metals /\
  NoDup (map fst n) /\ NoDup (map fst o).
Proof.
  rewrite readConcentrations_fold.
  pose proof (fold_step_spec metals [] [] false) as S.
  destruct (fold_left step metals ([], [], false)) as [[n o] h].
  destruct S as [Hn [Ho [Hh [Nn No]]]].
  repeat split; auto; apply Nn || apply No; constructor.
Qed.

Variable freshId : string.
Variables latitude longitude : string.

Let latGiven : bool := nonEmpty (trim latitude).
Let lonGiven : bool := nonEmpty (trim longitude).
Let outcome : SampleInputForm.Outcome num :=
  SampleInputForm.handleSubmit metals freshId latitude longitude concentrations selectedUnit.

(** [handleSubmit] as one decision chain. *)
Lemma handleSubmit_chain :
  outcome =
  if xorb latGiven lonGiven
  then SampleInputForm.Alert "Please enter both latitude and longitude, or leave both empty."
  else if latGiven && (isNaN (parseFloat latitude) || isNaN (parseFloat longitude))
  then SampleInputForm.Alert "Please enter valid latitude and longitude."
  else if negb (existsb (fun m => SampleInputForm.accepted (val m)) metals)
  then SampleInputForm.Alert "Please enter at least one metal concentration."
  else
    SampleInputForm.AddSample
      (SampleInputForm.mkSampleData freshId
         (if latGiven then parseFloat latitude else lit 0)
         (if lonGiven then parseFloat longitude else lit 0)
         (fst (fst (SampleInputForm.readConcentrations metals concentrations selectedUnit)))
         (snd (fst (SampleInputForm.readConcentrations metals concentrations selectedUnit)))).
Proof.
  subst outcome. unfold SampleInputForm.handleSubmit. fold latGiven lonGiven.
  pose proof readConcentrations_spec as S.
  destruct (SampleInputForm.readConcentrations metals concentrations selectedUnit)
    as [[n o] h].
  destruct S as [_ [_ [Hh _]]]. rewrite <- Hh.
  destruct latGiven, lonGiven; simpl; try reflexivity.
Qed.

Lemma handleSubmit_adds :
  (exists s, outcome = SampleInputForm.AddSample s) <->
  latGiven = lonGiven /\
  (latGiven = true ->
   isNaN (parseFloat latitude) = false /\ isNaN (parseFloat longitude) = false) /\
  (exists m, In m metals /\ isNaN (val m) = false /\ (val m >? lit 0) = true).
Proof.
  rewrite handleSubmit_chain.
  assert (Ex : existsb (fun m => SampleInputForm.accepted (val m)) metals = true <->
               exists m, In m metals /\ isNaN (val m) = false /\ (val m >? lit 0) = true).
  { rewrite existsb_exists. unfold SampleInputForm.accepted.
    split; intros [m [Hin Hm]]; exists m; split; auto.
    - apply andb_true_iff in Hm. destruct Hm as [N P].
      apply negb_true_iff in N. now split.
    - destruct Hm as [N P]. now rewrite N, P. }
  destruct (existsb (fun m => SampleInputForm.accepted (val m)) metals) eqn:E.
  - destruct latGiven, lonGiven; simpl;
      destruct (isNaN (parseFloat latitude)), (isNaN (parseFloat longitude)); simpl;
      split;
      try (intros [s D]; discriminate D);
      try (intros [G [N X]]; try discriminate G;
           destruct (N eq_refl) as [N1 N2]; discriminate);
      try (intros _; eexists; reflexivity);
      try (intros _; split; [reflexivity|]; split;
           [intros G; try discriminate G; now split | now apply Ex]).
  - destruct latGiven, lonGiven; simpl;
      destruct (isNaN (parseFloat latitude)), (isNaN (parseFloat longitude)); simpl;
      split;
      try (intros [s D]; discriminate D);
      intros [_ [_ X]]; apply Ex in X; discriminate X.
Qed.

Lemma handleSubmit_content (s : SampleInputForm.SampleData num) :
  outcome = SampleInputForm.AddSample s ->
  SampleInputForm.id s = freshId /\
  SampleInputForm.latitude s = (if latGiven then parseFloat latitude else lit 0) /\
  SampleInputForm.longitude s = (if lonGiven then parseFloat longitude else lit 0) /\
  (forall m, getMetal m (SampleInputForm.concentrations s) =
             if existsb (Metal_eqb m) metals && SampleInputForm.accepted (val m)
             then Some (Some (stored m)) else None) /\
  (forall m, getMetal m (SampleInputForm.originalConcentrations s) =
             if existsb (Metal_eqb m) metals && SampleInputForm.accepted (val m)
             then Some (Some (original m)) else None) /\
  NoDup (map fst (SampleInputForm.concentrations s)) /\
  NoDup (map fst (SampleInputForm.originalConcentrations s)).
Proof.
  rewrite handleSubmit_chain.
  pose proof readConcentrations_spec as S.
  destruct (SampleInputForm.readConcentrations metals concentrations selectedUnit)
    as [[n o] h].
  destruct S as [Hn [Ho [_ [Nn No]]]].
  destruct (xorb latGiven lonGiven); [discriminate|].
  destruct (latGiven && _); [discriminate|].
  destruct (negb _); [discriminate|].
  intros [= <-]. simpl. repeat split; auto.
Qed.

(** X20. The form adds a sample exactly when the two coordinate fields are
    both blank or both given, both parse to a number when given, and at
    least one listed metal has a field that parses to a positive number. *)
Theorem handleSubmit_adds_sample_iff :
  (exists s, outcome = SampleInputForm.AddSample s) <->
  latGiven = lonGiven /\
  (latGiven = true ->
   isNaN (parseFloat latitude) = false /\ isNaN (parseFloat longitude) = false) /\
  (exists m, In m metals /\ isNaN (val m) = false /\ (val m >? lit 0) = true).
Proof. exact handleSubmit_adds. Qed.

(** X21. The three refusals, in the order they are tested: one coordinate
    without the other; both given and one not a number; no metal with a
    positive number.  No other alert is shown. *)
Theorem handleSubmit_alerts :
  (latGiven <> lonGiven ->
   outcome = SampleInputForm.Alert
               "Please enter both latitude and longitude, or leave both empty.") /\
  (latGiven = true -> lonGiven = true ->
   isNaN (parseFloat latitude) || isNaN (parseFloat longitude) = true ->
   outcome = SampleInputForm.Alert "Please enter valid latitude and longitude.") /\
  (latGiven = lonGiven ->
   (latGiven = true ->
    isNaN (parseFloat latitude) || isNaN (parseFloat longitude) = false) ->
   (forall m, In m metals -> SampleInputForm.accepted (val m) = false) ->
   outcome = SampleInputForm.Alert "Please enter at least one metal concentration.") /\
  (forall message, outcome = SampleInputForm.Alert message ->
     In message
        ["Please enter both latitude and longitude, or leave both empty.";
         "Please enter valid latitude and longitude.";
         "Please enter at least one metal concentration."]).
Proof.
  rewrite handleSubmit_chain.
  split; [|split; [|split]].
  - intros D. destruct latGiven, lonGiven; try reflexivity; congruence.
  - intros -> -> N. simpl. now rewrite N.
  - intros G N A.
    assert (E : existsb (fun m => SampleInputForm.accepted (val m)) metals = false).
    { destruct (existsb (fun m => SampleInputForm.accepted (val m)) metals) eqn:E;
        [|reflexivity].
      apply existsb_exists in E. destruct E as [m [Hin Hm]].
      rewrite (A m Hin) in Hm. discriminate. }
    rewrite E, <- G. destruct latGiven; simpl; [|reflexivity].
    now rewrite (N eq_refl).
  - intros message.
    destruct (xorb latGiven lonGiven); [intros [= <-]; simpl; tauto|].
    destruct (latGiven && _); [intros [= <-]; simpl; tauto|].
    destruct (negb _); [intros [= <-]; simpl; tauto|].
    discriminate.
Qed.

(** X22. What an added sample holds: the identifier it was given; the parsed
    coordinates, or 0 and 0 when they were left blank; for each listed metal
    whose field parses to a positive number, and for no other metal, the
    value converted to mg/L and, beside it, the entered value, the selected
    unit and that same mg/L value; no metal twice. *)
Theorem handleSubmit_sample_content (s : SampleInputForm.SampleData num) :
  outcome = SampleInputForm.AddSample s ->
  SampleInputForm.id s = freshId /\
  SampleInputForm.latitude s = (if latGiven then parseFloat latitude else lit 0) /\
  SampleInputForm.longitude s = (if lonGiven then parseFloat longitude else lit 0) /\
  (forall m, getMetal m (SampleInputForm.concentrations s) =
             if existsb (Metal_eqb m) metals && SampleInputForm.accepted (val m)
             then Some (Some (stored m)) else None) /\
  (forall m, getMetal m (SampleInputForm.originalConcentrations s) =
             if existsb (Metal_eqb m) metals && SampleInputForm.accepted (val m)
             then Some (Some (original m)) else None) /\
  NoDup (map fst (SampleInputForm.concentrations s)) /\
  NoDup (map fst (SampleInputForm.originalConcentrations s)).
Proof. exact (@handleSubmit_content s). Qed.

End FormFacts.

Section FormBinary64.

Lemma binary_round_aux_sign (s : bool) (m e : Z) (l : location) :
  (0 <= m)%Z ->
  match binary_round_aux prec emax s m e l with
  | S754_zero s' | S754_infinity s' | S754_finite s' _ _ => s' = s
  | S754_nan => False
  end.
Proof.
  intros Hm. unfold binary_round_aux, shr_fexp.
  pose proof (shr_nonneg (shr_record_of_loc m l) e
                (fexp prec emax (Zdigits2 m + e) - e)%Z) as N1.
  rewrite shr_record_of_loc_m in N1. specialize (N1 Hm).
  destruct (shr (shr_record_of_loc m l) e (fexp prec emax (Zdigits2 m + e) - e)%Z)
    as [mrs' e'].
  simpl fst in N1.
  set (m1 := round_nearest_even (shr_m mrs') (loc_of_shr_record mrs')).
  assert (N2 : (0 <= m1)%Z) by now apply round_nearest_even_nonneg.
  pose proof (shr_nonneg (shr_record_of_loc m1 loc_Exact) e'
                (fexp prec emax (Zdigits2 m1 + e') - e')%Z) as N3.
  rewrite shr_record_of_loc_m in N3. specialize (N3 N2).
  destruct (shr (shr_record_of_loc m1 loc_Exact) e'
              (fexp prec emax (Zdigits2 m1 + e') - e')%Z) as [mrs'' e''].
  simpl fst in N3.
  destruct (shr_m mrs'') as [|p|p]; [reflexivity| |lia].
  destruct (e'' <=? emax - prec)%Z; reflexivity.
Qed.

(** A positive number times a positive finite constant is not negative. *)
Lemma float_mul_pos_nonneg (v c : float) (mc : positive) (ec : Z) :
  PrimFloat.ltb 0%float v = true ->
  Prim2SF c = S754_finite false mc ec ->
  PrimFloat.leb 0%float (PrimFloat.mul v c) = true.
Proof.
  rewrite ltb_spec, leb_spec, mul_spec. intros L C. rewrite C.
  change (Prim2SF 0) with (S754_zero false) in *.
  unfold SFltb in L. unfold SFleb, SF64mul.
  destruct (Prim2SF v) as [sv|sv| |sv mv ev]; simpl in L; try discriminate L.
  - destruct sv; [discriminate L|]. reflexivity.
  - destruct sv; [discriminate L|]. cbn [SFmul xorb].
    pose proof (@binary_round_aux_sign false (Z.pos (mv * mc)) (ev + ec)%Z loc_Exact) as S.
    destruct (binary_round_aux prec emax false (Z.pos (mv * mc)) (ev + ec)%Z loc_Exact)
      as [s'|s'| |s' m' e']; simpl.
    + reflexivity.
    + rewrite S by lia. reflexivity.
    + exfalso. apply S. lia.
    + rewrite S by lia. reflexivity.
Qed.

Lemma is_nan_false (v : float) : PrimFloat.is_nan v = false -> v <> nan.
Proof. intros E ->. discriminate E. Qed.

Lemma stored_float (v : float) (u : Unit) :
  SampleInputForm.accepted v = true ->
  convertToMgL (mkConcentration v u) <> nan /\
  PrimFloat.leb 0%float (convertToMgL (mkConcentration v u)) = true.
Proof.
  unfold SampleInputForm.accepted. cbn [isNaN float_JsNaN gtb lit float_JsNumber].
  change (float_lit 0) with 0%float.
  intros A. apply andb_true_iff in A. destruct A as [N P].
  apply negb_true_iff in N. split.
  - intros E. apply convertUnit_to_MG_L_nan in E. now apply (is_nan_false N).
  - rewrite convertToMgL_float_product.
    destruct u; cbn [UNIT_INFO toMgL lit float_JsNumber].
    + apply (@float_mul_pos_nonneg v _ 4503599627370496%positive (-52)%Z P). reflexivity.
    + apply (@float_mul_pos_nonneg v _ 4503599627370496%positive (-52)%Z P). reflexivity.
    + apply (@float_mul_pos_nonneg v _ 4611686018427388%positive (-62)%Z P). reflexivity.
    + apply (@float_mul_pos_nonneg v _ 4611686018427388%positive (-62)%Z P). reflexivity.
Qed.

Context `{JsParseFloat float} `{JsString}.

(** X23. On binary64 a sample the form adds holds no NaN: its coordinates are
    numbers and every stored concentration is a number that is not
    negative. *)
Theorem handleSubmit_never_stores_NaN
  (metals : list Metal) (freshId latitude longitude : string)
  (concentrations : Metal -> string) (selectedUnit : Unit)
  (s : SampleInputForm.SampleData float) :
  SampleInputForm.handleSubmit metals freshId latitude longitude concentrations selectedUnit
  = SampleInputForm.AddSample s ->
  SampleInputForm.latitude s <> nan /\
  SampleInputForm.longitude s <> nan /\
  (forall m x, In (m, x) (SampleInputForm.concentrations s) ->
     exists v, x = Some v /\ v <> nan /\ PrimFloat.leb 0%float v = true).
Proof.
  intros E.
  assert (Ad : exists s', SampleInputForm.handleSubmit metals freshId latitude longitude
                            concentrations selectedUnit = SampleInputForm.AddSample s')
    by (now exists s).
  apply handleSubmit_adds in Ad. destruct Ad as [G [N _]].
  destruct (handleSubmit_content _ _ _ _ _ _ E) as [_ [La [Lo [Hn [_ [Nn _]]]]]].
  split; [|split].
  - rewrite La. destruct (nonEmpty (trim latitude)).
    + apply is_nan_false. now apply N.
    + cbn. intros D. discriminate D.
  - rewrite Lo. rewrite <- G. destruct (nonEmpty (trim latitude)).
    + apply is_nan_false. now apply N.
    + cbn. intros D. discriminate D.
  - intros m x Hin. apply (getMetal_In m _ x Nn) in Hin. rewrite Hn in Hin.
    destruct (existsb (Metal_eqb m) metals); simpl in Hin; [|discriminate].
    destruct (SampleInputForm.accepted (parseFloat (concentrations m))) eqn:A;
      [|discriminate].
    injection Hin as <-. eexists. split; [reflexivity|].
    now apply stored_float.
Qed.
End FormBinary64.

(** ** Witnesses on concrete inputs *)

(** The argument "MG/L" with a space before and two after. *)
Lemma parseUnit_padding_and_case_witness :
  all_space " " = true /\ all_space "  " = true /\
  parseUnit (" " ++ "MG/L" ++ "  ") = parseUnit "MG/L" /\
  parseUnit (lower_string "MG/L") = parseUnit "MG/L".
Proof.
  assert (E : all_space " " = true) by reflexivity.
  assert (E' : all_space "  " = true) by reflexivity.
  split; [exact E|]. split; [exact E'|].
  exact (@parseUnit_padding_and_case " " "MG/L" "  " E E').
Defined.

(** The registry entry of UG_L, padded. *)
Lemma parseUnit_registry_round_trip_witness :
  all_space " " = true /\ all_space "  " = true /\
  parseUnit (" " ++ symbol (UNIT_INFO (num:=Q) UG_L) ++ "  ") = VUnit UG_L /\
  parseUnit (" " ++ name (UNIT_INFO (num:=Q) UG_L) ++ "  ") = VUnit UG_L /\
  parseUnit (" " ++ Unit_value UG_L ++ "  ") = VUnit UG_L.
Proof.
  assert (E : all_space " " = true) by reflexivity.
  assert (E' : all_space "  " = true) by reflexivity.
  split; [exact E|]. split; [exact E'|].
  exact (@parseUnit_registry_round_trip UG_L " " "  " E E').
Defined.

(** The example form, submitted in ppb with both coordinates given: lead and
    chromium are stored in mg/L, mercury (negative) and the empty fields are
    left out, and the least positive double is stored as 0. *)
Lemma handleSubmit_sample_content_witness :
  let s :=
    SampleInputForm.mkSampleData "manual-1" 12.5%float 77.1%float
      [(Pb, Some 0.08%float); (Cr, Some 0.0005%float); (Zn, Some 0%float)]
      [(Pb, Some (SampleInputForm.mkConcentrationValue 80%float PPB 0.08%float));
       (Cr, Some (SampleInputForm.mkConcentrationValue 0.5%float PPB 0.0005%float));
       (Zn, Some (SampleInputForm.mkConcentrationValue 5e-324%float PPB 0%float))] in
  @SampleInputForm.handleSubmit float _ _ table_JsParseFloat _ AVAILABLE_METALS
    "manual-1" "12.5" "77.1" fields_example PPB = SampleInputForm.AddSample s /\
  getMetal Pb (SampleInputForm.concentrations s) = Some (Some 0.08%float) /\
  getMetal Hg (SampleInputForm.concentrations s) = None /\
  getMetal As (SampleInputForm.concentrations s) = None /\
  NoDup (map fst (SampleInputForm.concentrations s)).
Proof.
  intros s.
  assert (E : @SampleInputForm.handleSubmit float _ _ table_JsParseFloat _
                AVAILABLE_METALS "manual-1" "12.5" "77.1" fields_example PPB
              = SampleInputForm.AddSample s) by reflexivity.
  split; [exact E|].
  destruct (@handleSubmit_sample_content float _ _ table_JsParseFloat _
              AVAILABLE_METALS fields_example PPB "manual-1" "12.5" "77.1" s E)
    as [_ [_ [_ [Hn [_ [Nn _]]]]]].
  split; [rewrite (Hn Pb); reflexivity|].
  split; [rewrite (Hn Hg); reflexivity|].
  split; [rewrite (Hn As); reflexivity | exact Nn].
Defined.

Lemma handleSubmit_never_stores_NaN_witness :
  let s :=
    SampleInputForm.mkSampleData "manual-2" 0%float 0%float
      [(Pb, Some 80%float); (Cr, Some 0.5%float); (Zn, Some 5e-324%float)]
      [(Pb, Some (SampleInputForm.mkConcentrationValue 80%float MG_L 80%float));
       (Cr, Some (SampleInputForm.mkConcentrationValue 0.5%float MG_L 0.5%float));
       (Zn, Some (SampleInputForm.mkConcentrationValue 5e-324%float MG_L 5e-324%float))] in
  @SampleInputForm.handleSubmit float _ _ table_JsParseFloat _ AVAILABLE_METALS
    "manual-2" " " "" fields_example MG_L = SampleInputForm.AddSample s /\
  SampleInputForm.latitude s <> nan /\
  SampleInputForm.longitude s <> nan /\
  (forall m x, In (m, x) (SampleInputForm.concentrations s) ->
     exists v, x = Some v /\ v <> nan /\ PrimFloat.leb 0%float v = true).
Proof.
  intros s.
  assert (E : @SampleInputForm.handleSubmit float _ _ table_JsParseFloat _
                AVAILABLE_METALS "manual-2" " " "" fields_example MG_L
              = SampleInputForm.AddSample s) by reflexivity.
  split; [exact E|].
  exact (@handleSubmit_never_stores_NaN table_JsParseFloat _ AVAILABLE_METALS
           "manual-2" " " "" fields_example MG_L s E).
Defined.
